(** * hierarchicalforecast.core: the reconciliation dispatcher

    A shallow embedding of [src/hierarchicalforecast/core.py]
    ([_build_fn_name] and [HierarchicalReconciliation.reconcile]) and the
    properties of it that the specification states.

    Conventions of the embedding.
    - A Python exception is a value of [exn]; code that can raise returns
      [result].
    - The staging dictionary [common_vals] is one [gmap string val] threaded
      through the two loops, exactly as the source mutates one shared dict.
    - float64 arithmetic is kept symbolic: a cell of a matrix is the
      expression numpy evaluates ([num]); no rounding is modelled, and
      [scipy.stats.norm.ppf] is the constructor [Ppf].
    - pandas: [DataFrame.pivot], [.loc[labels]], [Index.get_indexer],
      [Index.unique] and column assignment are modelled by what they do on
      the tables the source passes them. *)

From Stdlib Require Import Ascii String QArith Sorted.
From stdpp Require Import base strings list gmap pretty.

Open Scope string_scope.
Open Scope Z_scope.

(** ** Exceptions and results *)

Inductive exn : Type :=
| KeyError (labels : list string)   (* dict key or index labels not found *)
| IndexError                        (* list index out of range *)
| ValueError (msg : string)
| MethodError (msg : string).       (* raised by a reconciliation method *)

Inductive result (A : Type) : Type :=
| Ok (a : A)
| Err (e : exn).
Arguments Ok {A} a.
Arguments Err {A} e.

Definition bind {A B : Type} (r : result A) (k : A -> result B) : result B :=
  match r with
  | Ok a => k a
  | Err e => Err e
  end.

Notation "x <- r ;; k" := (bind r (fun x => k))
  (at level 100, r at next level, right associativity, only parsing).

Definition is_ok {A : Type} (r : result A) : bool :=
  match r with Ok _ => true | Err _ => false end.

(** ** Strings: Python's [needle in haystack] *)

Fixpoint contains (needle hay : string) : bool :=
  String.prefix needle hay ||
  match hay with
  | EmptyString => false
  | String _ rest => contains needle rest
  end.

(** ** Hyperparameters and method labels *)

(** The values found in a reconciler's [__dict__]. *)
Inductive pyval : Type :=
| PStr (s : string)
| PInt (z : Z)
| PBool (b : bool)
| PNone.

(** [f'{value}'], that is [str(value)]. *)
Definition py_str (v : pyval) : string :=
  match v with
  | PStr s => s
  | PInt z => pretty z
  | PBool true => "True"
  | PBool false => "False"
  | PNone => "None"
  end.

(** ['_'.join(items)] *)
Definition join (sep : string) (items : list string) : string :=
  String.concat sep items.

(** [_build_fn_name], on the type name and the [__dict__] of [fn] (a dict in
    insertion order). *)
Definition build_fn_name_of (type_name : string) (dict : list (string * pyval)) : string :=
  let func_params := map (fun '(name, value) => name ++ "-" ++ py_str value) dict in
  match func_params with
  | [] => type_name
  | _ :: _ => type_name ++ "_" ++ join "_" func_params
  end.

(** ** Numbers, matrices and tables *)

(** A float64 value, as the expression that computes it.  [Const] is a cell
    read from a table or a literal, [NaN] the hole [pivot] leaves for a
    missing (series, timestamp) pair, [F32] is [astype(np.float32)] and
    [Ppf] is [scipy.stats.norm.ppf]. *)
Inductive num : Type :=
| Const (q : Q)
| NaN
| Add (a b : num)
| Sub (a b : num)
| Mul (a b : num)
| Div (a b : num)
| Ppf (a : num)
| F32 (a : num).

Definition matrix : Type := list (list num).

(** Elementwise operations of numpy on arrays of one shape, and with a
    scalar. *)
Definition mat_map (f : num -> num) (m : matrix) : matrix := map (map f) m.

Definition mat_sub (a b : matrix) : matrix :=
  zip_with (zip_with Sub) a b.

Definition astype_float32 (m : matrix) : matrix := mat_map F32 m.

(** [ndarray.flatten()], row-major. *)
Definition flatten (m : matrix) : list num := concat m.

(** A long-format table indexed by [unique_id]: [ds] is the timestamp
    column, which both input tables have; [columns] are the other columns
    in their order. *)
Record DataFrame : Type := {
  index : list string;
  ds : list Z;
  columns : list (string * list num)
}.

Definition column_names (df : DataFrame) : list string := map fst (columns df).

(** [name in df.columns] *)
Definition in_columns (name : string) (df : DataFrame) : bool :=
  bool_decide (name = "ds") || bool_decide (name ∈ column_names df).

(** The aggregation matrix [S]: rows labelled by every series, columns by
    the bottom series. *)
Record SFrame : Type := {
  s_index : list string;
  s_columns : list string;
  s_values : matrix
}.

(** [Index.unique()]: first occurrences, in order. *)
Fixpoint unique_from {A : Type} `{EqDecision A} (seen l : list A) : list A :=
  match l with
  | [] => []
  | x :: rest =>
    if bool_decide (x ∈ seen) then unique_from seen rest
    else x :: unique_from (x :: seen) rest
  end.

Definition unique {A : Type} `{EqDecision A} (l : list A) : list A :=
  unique_from [] l.

(** Sorting, for the labels of a pivoted table. *)
Fixpoint insert_sorted {A : Type} (leb : A -> A -> bool) (x : A) (l : list A) : list A :=
  match l with
  | [] => [x]
  | y :: rest => if leb x y then x :: l else y :: insert_sorted leb x rest
  end.

Definition sort {A : Type} (leb : A -> A -> bool) (l : list A) : list A :=
  foldr (insert_sorted leb) [] l.

Definition sorted_unique_labels (l : list string) : list string :=
  sort String.leb (unique l).

Definition sorted_unique_ds (l : list Z) : list Z :=
  sort Z.leb (unique l).

(** [df[name]] for a value column. *)
Definition get_column (df : DataFrame) (name : string) : result (list num) :=
  match list_find (fun c => fst c = name) (columns df) with
  | Some (_, c) => Ok (snd c)
  | None => Err (KeyError [name])
  end.

(** The wide table [DataFrame.pivot(columns='ds', values=...)] returns:
    one row per series, one column per timestamp, both sorted. *)
Record Wide : Type := {
  w_index : list string;
  w_columns : list Z;
  w_values : matrix
}.

(** The rows of the long table, as (series, timestamp, value). *)
Definition long_rows (df : DataFrame) (vals : list num) : list (string * Z * num) :=
  zip (zip (index df) (ds df)) vals.

(** The cell of a pivoted table: the value recorded for the pair, [NaN]
    when the long table has no such row. *)
Definition pivot_cell (rows : list (string * Z * num)) (u : string) (t : Z) : num :=
  match list_find (fun r => fst r = (u, t)) rows with
  | Some (_, r) => snd r
  | None => NaN
  end.

Definition has_duplicates {A : Type} `{EqDecision A} (l : list A) : bool :=
  negb (bool_decide (NoDup l)).

(** [df.pivot(columns='ds', values=values)]: pandas refuses a table with
    two rows for one (series, timestamp) pair, and fills a missing pair
    with NaN. *)
Definition pivot (df : DataFrame) (values : string) : result Wide :=
  vals <- get_column df values ;;
  if has_duplicates (zip (index df) (ds df))
  then Err (ValueError "Index contains duplicate entries, cannot reshape")
  else
    let rows := sorted_unique_labels (index df) in
    let cols := sorted_unique_ds (ds df) in
    Ok {| w_index := rows;
          w_columns := cols;
          w_values :=
            map (fun u => map (fun t => pivot_cell (long_rows df vals) u t) cols) rows |}.

(** [wide.loc[uids].values]: the rows of the requested labels, in the
    requested order; a label that is not in the index is a [KeyError]. *)
Definition wide_loc_values (w : Wide) (uids : list string) : result matrix :=
  match List.filter (fun u => negb (bool_decide (u ∈ w_index w))) uids with
  | [] =>
    Ok (flat_map (fun u =>
          map snd (List.filter (fun r => bool_decide (fst r = u))
                               (zip (w_index w) (w_values w)))) uids)
  | missing => Err (KeyError missing)
  end.

(** [df.pivot(columns='ds', values=values).loc[uids].values] *)
Definition pivot_loc_values (df : DataFrame) (values : string) (uids : list string)
  : result matrix :=
  w <- pivot df values ;;
  wide_loc_values w uids.

(** [S.loc[uids]]: as above, on the aggregation matrix. *)
Definition s_loc (S : SFrame) (uids : list string) : result SFrame :=
  match List.filter (fun u => negb (bool_decide (u ∈ s_index S))) uids with
  | [] =>
    let rows := flat_map (fun u =>
                  List.filter (fun r => bool_decide (fst r = u))
                              (zip (s_index S) (s_values S))) uids in
    Ok {| s_index := map fst rows; s_columns := s_columns S; s_values := map snd rows |}
  | missing => Err (KeyError missing)
  end.

(** The position of a label in an index, [-1] when it is absent. *)
Definition position (idx : list string) (label : string) : Z :=
  match list_find (fun l => l = label) idx with
  | Some (i, _) => Z.of_nat i
  | None => -1
  end.

(** [idx.get_indexer(target)]: pandas refuses an index with repeated
    labels. *)
Definition get_indexer (idx target : list string) : result (list Z) :=
  if has_duplicates idx
  then Err (ValueError "Reindexing only valid with uniquely valued Index objects")
  else Ok (map (position idx) target).

(** [df[name] = values]: the values must fit the rows; an existing column
    is overwritten in place, a new one is appended. *)
Fixpoint assign_column (cols : list (string * list num)) (name : string) (values : list num)
  : list (string * list num) :=
  match cols with
  | [] => [(name, values)]
  | (n, c) :: rest =>
    if bool_decide (n = name) then (n, values) :: rest
    else (n, c) :: assign_column rest name values
  end.

Definition set_column (df : DataFrame) (name : string) (values : list num)
  : result DataFrame :=
  if bool_decide (length values = length (index df))
  then Ok {| index := index df; ds := ds df;
             columns := assign_column (columns df) name values |}
  else Err (ValueError "Length of values does not match length of index").

(** ** The level written in an interval column's name *)

Definition is_digit (c : ascii) : bool :=
  let n := nat_of_ascii c in (Nat.leb 48 n && Nat.leb n 57)%nat.

(** [[.,\d]] *)
Definition is_num_char (c : ascii) : bool :=
  is_digit c || bool_decide (c = "."%char) || bool_decide (c = ","%char).

Fixpoint take_while (p : ascii -> bool) (s : string) : string :=
  match s with
  | EmptyString => EmptyString
  | String c rest => if p c then String c (take_while p rest) else EmptyString
  end.

Definition starts_with (p : ascii -> bool) (s : string) : bool :=
  match s with
  | EmptyString => false
  | String c _ => p c
  end.

(** [re.findall('[\d]+[.,\d]+|[\d]*[.][\d]+|[\d]+', s)[0]]: the leftmost
    match.  At a digit the first alternative takes the whole run of
    [[.,\d]] when that run has two characters or more, and the third takes
    the digit when the run is that digit alone: the run in both cases.  At a
    dot only the second alternative can match, and needs a digit next: the
    dot and the digits after it.  No alternative starts at another
    character.  An empty list of matches makes [[0]] an [IndexError].
    Names are byte strings here, so [\d] is one of the ten ASCII digits. *)
Fixpoint first_number (s : string) : result string :=
  match s with
  | EmptyString => Err IndexError
  | String c rest =>
    if is_digit c then Ok (String c (take_while is_num_char rest))
    else if bool_decide (c = "."%char) && starts_with is_digit rest
    then Ok (String c (take_while is_digit rest))
    else first_number rest
  end.

Definition digit_value (c : ascii) : Z := Z.of_nat (nat_of_ascii c - 48).

(** The digits before the dot and those after it; [None] when the text
    has a comma or a second dot. *)
Fixpoint split_decimal (s : string) (seen_dot : bool) (int_part frac_part : list ascii)
  : option (list ascii * list ascii) :=
  match s with
  | EmptyString => Some (int_part, frac_part)
  | String c rest =>
    if is_digit c then
      if seen_dot then split_decimal rest seen_dot int_part (frac_part ++ [c])
      else split_decimal rest seen_dot (int_part ++ [c]) frac_part
    else if bool_decide (c = "."%char) && negb seen_dot
    then split_decimal rest true int_part frac_part
    else None
  end.

Definition digits_value (l : list ascii) : Z :=
  foldl (fun acc c => 10 * acc + digit_value c) 0 l.

(** [float(s)] on a text of digits, dots and commas: Python accepts
    [80], [80.], [97.5] and [.5], and raises [ValueError] on [1,5] and
    [1.2.3]. *)
Definition py_float (s : string) : result Q :=
  match split_decimal s false [] [] with
  | Some (int_part, frac_part) =>
    Ok (Qmake (digits_value (int_part ++ frac_part))
              (Z.to_pos (10 ^ Z.of_nat (length frac_part))))
  | None => Err (ValueError ("could not convert string to float: " ++ s))
  end.

(** ** The staging dictionary and the reconcilers *)

(** What [common_vals] holds. *)
Inductive val : Type :=
| VMatrix (m : matrix)
| VIndexer (ix : list Z)
| VTags (t : list (string * list Z))
| VLevel (l : list Z)
| VNone
| VBool (b : bool)
| VSamples (y_insample : val) (y_hat_insample y_hat : matrix) (n_samples : Z).

(** Modelled from the spec: [_bootstrap_samples] of [methods.py], which is
    not among the sources.  The spec (4.4) fixes what it is given and not
    what it computes, so its result is kept as the call itself. *)
Definition bootstrap_samples (y_insample : val) (y_hat_insample y_hat : matrix)
    (n_samples : Z) : val :=
  VSamples y_insample y_hat_insample y_hat n_samples.

(** A reconciliation method, as far as [reconcile] looks at it: the name of
    its type, its [__dict__], the parameter names of its call signature, and
    what calling it with [y_hat] and keyword arguments returns or raises. *)
Record Reconciler : Type := {
  type_name : string;
  dict : list (string * pyval);
  parameters : list string;
  call : matrix -> list (string * val) -> result (list (string * matrix))
}.

Definition _build_fn_name (fn : Reconciler) : string :=
  build_fn_name_of (type_name fn) (dict fn).

(** [d[key]] on a dict. *)
Definition dict_get (d : gmap string val) (key : string) : result val :=
  match d !! key with
  | Some v => Ok v
  | None => Err (KeyError [key])
  end.

(** [del d[key]] *)
Definition del (key : string) (d : gmap string val) : result (gmap string val) :=
  match d !! key with
  | Some _ => Ok (delete key d)
  | None => Err (KeyError [key])
  end.

(** [fcsts_model[key]] on the mapping a method returns. *)
Definition result_get (r : list (string * matrix)) (key : string) : result matrix :=
  match list_find (fun kv => fst kv = key) r with
  | Some (_, kv) => Ok (snd kv)
  | None => Err (KeyError [key])
  end.

(** [l[0]] *)
Definition first {A : Type} (l : list A) : result A :=
  match l with
  | x :: _ => Ok x
  | [] => Err IndexError
  end.

Definition is_not_None {A : Type} (o : option A) : bool :=
  match o with Some _ => true | None => false end.

Definition level_val (level : option (list Z)) : val :=
  match level with
  | Some l => VLevel l
  | None => VNone
  end.

Fixpoint foldM {A B : Type} (f : A -> B -> result A) (a : A) (l : list B) : result A :=
  match l with
  | [] => Ok a
  | b :: rest => a' <- f a b ;; foldM f a' rest
  end.

Fixpoint mapM {A B : Type} (f : A -> result B) (l : list A) : result (list B) :=
  match l with
  | [] => Ok []
  | a :: rest => b <- f a ;; bs <- mapM f rest ;; Ok (b :: bs)
  end.

(** ** The interval-to-scale estimator (lines 112 to 117) *)

(** [-1 if 'lo' in pi_col else 1] *)
Definition sign_of (pi_col : string) : Z :=
  if contains "lo" pi_col then -1 else 1.

(** [float(re.findall(...)[0])] *)
Definition level_of (pi_col : string) : result Q :=
  level_col <- first_number pi_col ;;
  py_float level_col.

(** [norm.ppf(0.5 + level_col / 200)] *)
Definition z_score (level_col : Q) : num :=
  Ppf (Add (Const (1 # 2)) (Div (Const level_col) (Const 200))).

(** [sign * (y_hat_model - bound) / z] *)
Definition interval_to_scale (sign : Z) (level_col : Q) (y_hat_model bound : matrix)
  : matrix :=
  mat_map (fun x => Div x (z_score level_col))
          (mat_map (Mul (Const (inject_Z sign))) (mat_sub y_hat_model bound)).

(** ** The dispatcher *)

Section Dispatch.

(** The arguments of [reconcile] and the values it computes before the
    loops. *)
Variables (Y_hat_df Y_df : DataFrame).
Variables (level : option (list Z)) (bootstrap : bool).
Variables (uids pi_model_names : list string).

(** [[pi_name for pi_name in pi_model_names if model_name in pi_name]] *)
Definition pi_model_name_of (model_name : string) : list string :=
  List.filter (contains model_name) pi_model_names.

(** [len(pi_model_name) > 0] *)
Definition pi_of (model_name : string) : bool :=
  bool_decide (0 < length (pi_model_name_of model_name))%nat.

(** Lines 106 to 119: the scale estimate and the level list. *)
Definition stage_sigmah (has_level : bool) (model_name : string) (y_hat_model : matrix)
    (common_vals : gmap string val) : result (gmap string val) :=
  if pi_of model_name && has_level && is_not_None level && negb bootstrap then
    pi_col <- first (pi_model_name_of model_name) ;;
    let sign := sign_of pi_col in
    level_col <- level_of pi_col ;;
    sigmah <- pivot_loc_values Y_hat_df pi_col uids ;;
    let sigmah := interval_to_scale sign level_col y_hat_model sigmah in
    Ok (<["level" := level_val level]> (<["sigmah" := VMatrix sigmah]> common_vals))
  else Ok common_vals.

(** Lines 120 to 139: the fitted values and the bootstrap samples. *)
Definition stage_fitted (has_fitted has_level : bool) (model_name : string)
    (y_hat_model : matrix) (common_vals : gmap string val)
  : result (gmap string val) :=
  if has_fitted || bootstrap then
    if in_columns model_name Y_df then
      y_hat_insample <- pivot_loc_values Y_df model_name uids ;;
      let y_hat_insample := astype_float32 y_hat_insample in
      let common_vals :=
        if has_fitted
        then <["y_hat_insample" := VMatrix y_hat_insample]> common_vals
        else common_vals in
      if bootstrap && has_level then
        y_insample <- dict_get common_vals "y_insample" ;;
        let samples := bootstrap_samples y_insample y_hat_insample y_hat_model 1000 in
        Ok (<["level" := level_val level]>
              (<["bootstrap" := VBool bootstrap]>
                 (<["bootstrap_samples" := samples]> common_vals)))
      else Ok common_vals
    else Ok (<["y_hat_insample" := VNone]> common_vals)
  else Ok common_vals.

(** Lines 100 to 139: everything an iteration stages before it calls the
    method. *)
Definition stage (has_fitted has_level : bool) (model_name : string)
    (common_vals : gmap string val) : result (matrix * gmap string val) :=
  y_hat_model <- pivot_loc_values Y_hat_df model_name uids ;;
  common_vals <- stage_sigmah has_level model_name y_hat_model common_vals ;;
  common_vals <- stage_fitted has_fitted has_level model_name y_hat_model common_vals ;;
  Ok (y_hat_model, common_vals).

(** Lines 140 and 141: the staged values the signature names. *)
Definition build_kwargs (fn : Reconciler) (common_vals : gmap string val)
  : list (string * val) :=
  omap (fun key => match common_vals !! key with
                   | Some v => Some (key, v)
                   | None => None
                   end) (parameters fn).

(** Lines 145 to 147: the two interval columns of one level. *)
Definition write_level (model_name reconcile_fn_name : string)
    (fcsts_model : list (string * matrix)) (fcsts : DataFrame) (lv : Z)
  : result DataFrame :=
  lo <- result_get fcsts_model ("lo-" ++ pretty lv) ;;
  fcsts <- set_column fcsts (model_name ++ "/" ++ reconcile_fn_name ++ "-lo-" ++ pretty lv)
                      (flatten lo) ;;
  hi <- result_get fcsts_model ("hi-" ++ pretty lv) ;;
  set_column fcsts (model_name ++ "/" ++ reconcile_fn_name ++ "-hi-" ++ pretty lv)
             (flatten hi).

(** Lines 143 to 147: the columns an iteration writes. *)
Definition write (has_level : bool) (model_name reconcile_fn_name : string)
    (fcsts_model : list (string * matrix)) (fcsts : DataFrame) : result DataFrame :=
  mean <- result_get fcsts_model "mean" ;;
  fcsts <- set_column fcsts (model_name ++ "/" ++ reconcile_fn_name) (flatten mean) ;;
  if (pi_of model_name && has_level && is_not_None level)
     || (bootstrap && is_not_None level)
  then foldM (write_level model_name reconcile_fn_name fcsts_model) fcsts
             (default [] level)
  else Ok fcsts.

(** Lines 148 to 155: the [del] statements. *)
Definition purge (has_fitted has_level : bool) (model_name : string)
    (common_vals : gmap string val) : result (gmap string val) :=
  common_vals <-
    (if (pi_of model_name && has_level && is_not_None level)
        || (bootstrap && is_not_None level)
     then
       common_vals <- del "level" common_vals ;;
       if negb bootstrap then del "sigmah" common_vals
       else
         common_vals <- del "bootstrap_samples" common_vals ;;
         del "bootstrap" common_vals
     else Ok common_vals) ;;
  if has_fitted then del "y_hat_insample" common_vals else Ok common_vals.

(** The body of the inner loop.  The source interleaves the interval
    columns and the [del] statements in one [if]; every write comes
    before the first [del] and they touch different objects, so they are
    two steps here. *)
Definition iteration (reconcile_fn : Reconciler) (reconcile_fn_name : string)
    (has_fitted has_level : bool) (st : gmap string val * DataFrame)
    (model_name : string) : result (gmap string val * DataFrame) :=
  staged <- stage has_fitted has_level model_name (fst st) ;;
  let kwargs := build_kwargs reconcile_fn (snd staged) in
  fcsts_model <- call reconcile_fn (fst staged) kwargs ;;
  fcsts <- write has_level model_name reconcile_fn_name fcsts_model (snd st) ;;
  common_vals <- purge has_fitted has_level model_name (snd staged) ;;
  Ok (common_vals, fcsts).

(** The body of the outer loop. *)
Definition per_reconciler (model_names : list string)
    (st : gmap string val * DataFrame) (reconcile_fn : Reconciler)
  : result (gmap string val * DataFrame) :=
  let reconcile_fn_name := _build_fn_name reconcile_fn in
  let has_fitted := bool_decide ("y_hat_insample" ∈ parameters reconcile_fn) in
  let has_level := bool_decide ("level" ∈ parameters reconcile_fn) in
  foldM (iteration reconcile_fn reconcile_fn_name has_fitted has_level) st model_names.

End Dispatch.

(** Lines 80 to 85: the model columns and the interval columns. *)
Definition drop_cols (Y_hat_df : DataFrame) : list string :=
  if in_columns "y" Y_hat_df then ["ds"; "y"] else ["ds"].

Definition all_model_names (Y_hat_df : DataFrame) : list string :=
  List.filter (fun name => negb (bool_decide (name ∈ drop_cols Y_hat_df)))
              (column_names Y_hat_df).

Definition pi_model_names_of (Y_hat_df : DataFrame) : list string :=
  List.filter (fun name => contains "-lo" name || contains "-hi" name)
              (all_model_names Y_hat_df).

Definition model_names_of (Y_hat_df : DataFrame) : list string :=
  List.filter (fun name => negb (bool_decide (name ∈ pi_model_names_of Y_hat_df)))
              (all_model_names Y_hat_df).

(** Lines 86 to 94: the shared context. *)
Definition build_common_vals (Y_df : DataFrame) (S : SFrame)
    (tags : list (string * list string)) (uids : list string)
  : result (gmap string val) :=
  S_ <- s_loc S uids ;;
  y_insample <- pivot_loc_values Y_df "y" uids ;;
  idx_bottom <- get_indexer (s_index S_) (s_columns S) ;;
  tags <- mapM (fun kv => ix <- get_indexer (s_index S_) (snd kv) ;; Ok (fst kv, ix)) tags ;;
  Ok (<["tags" := VTags tags]>
        (<["idx_bottom" := VIndexer idx_bottom]>
           (<["S" := VMatrix (astype_float32 (s_values S_))]>
              (<["y_insample" := VMatrix (astype_float32 y_insample)]> ∅)))).

(** [HierarchicalReconciliation(reconcilers).reconcile(Y_hat_df, Y_df, S,
    tags, level, bootstrap)] *)
Definition reconcile (reconcilers : list Reconciler) (Y_hat_df Y_df : DataFrame)
    (S : SFrame) (tags : list (string * list string)) (level : option (list Z))
    (bootstrap : bool) : result DataFrame :=
  let pi_model_names := pi_model_names_of Y_hat_df in
  let model_names := model_names_of Y_hat_df in
  let uids := unique (index Y_hat_df) in
  common_vals <- build_common_vals Y_df S tags uids ;;
  let fcsts := Y_hat_df in
  st <- foldM (per_reconciler Y_hat_df Y_df level bootstrap uids pi_model_names model_names)
              (common_vals, fcsts) reconcilers ;;
  Ok (snd st).

(** ** Concrete tables and methods *)

Module Examples.

(** A method that returns its input as the mean and, when it is given a
    level list, as both bounds of every level. *)
Definition passthrough_call (y_hat : matrix) (kwargs : list (string * val))
  : result (list (string * matrix)) :=
  let levels :=
    match list_find (fun kv => fst kv = "level") kwargs with
    | Some (_, (_, VLevel l)) => l
    | _ => []
    end in
  Ok (("mean", y_hat) ::
      flat_map (fun lv => [("lo-" ++ pretty lv, y_hat); ("hi-" ++ pretty lv, y_hat)])
               levels).

Definition passthrough (params : list string) : Reconciler :=
  {| type_name := "Passthrough"; dict := []; parameters := params;
     call := passthrough_call |}.

Definition c (z : Z) : num := Const (inject_Z z).

(** Two series, [regionA] the only bottom one, three timestamps. *)
Definition S2 : SFrame :=
  {| s_index := ["total"; "regionA"]; s_columns := ["regionA"];
     s_values := [[c 1]; [c 1]] |}.

Definition idx6 : list string :=
  ["total"; "total"; "total"; "regionA"; "regionA"; "regionA"].
Definition ds6 : list Z := [1; 2; 3; 1; 2; 3].
Definition tens : list num := [c 10; c 10; c 10; c 10; c 10; c 10].

Definition Y_hat_naive : DataFrame :=
  {| index := idx6; ds := ds6; columns := [("naive", tens)] |}.

Definition Y_train : DataFrame :=
  {| index := idx6; ds := ds6; columns := [("y", tens)] |}.

Definition tags2 : list (string * list string) :=
  [("top", ["total"]); ("bottom", ["regionA"])].

Definition tens_matrix : matrix := [[c 10; c 10; c 10]; [c 10; c 10; c 10]].

(** The same forecasts with a lower bound at level 80. *)
Definition sevens : list num := [c 7; c 7; c 7; c 7; c 7; c 7].

Definition sevens_matrix : matrix := [[c 7; c 7; c 7]; [c 7; c 7; c 7]].

(** A model and one interval column for it. *)
Definition Y_hat_with (model pi_col : string) (bound : list num) : DataFrame :=
  {| index := idx6; ds := ds6; columns := [(model, tens); (pi_col, bound)] |}.

Definition Y_hat_pi : DataFrame := Y_hat_with "naive" "naive-lo-80" sevens.

Definition thirteens : list num := [c 13; c 13; c 13; c 13; c 13; c 13].
Definition thirteens_matrix : matrix := [[c 13; c 13; c 13]; [c 13; c 13; c 13]].

(** Two models, and a training table with the fitted values of [A] and
    none for [B]. *)
Definition nines : list num := [c 9; c 9; c 9; c 9; c 9; c 9].
Definition nines_matrix : matrix := [[c 9; c 9; c 9]; [c 9; c 9; c 9]].

Definition Y_hat_AB : DataFrame :=
  {| index := idx6; ds := ds6; columns := [("A", tens); ("B", sevens)] |}.

Definition Y_train_A : DataFrame :=
  {| index := idx6; ds := ds6; columns := [("y", tens); ("A", nines)] |}.

(** A method that returns its input as the mean and as the bounds of
    level 80, whatever it is given. *)
Definition bounds_call (y_hat : matrix) (kwargs : list (string * val))
  : result (list (string * matrix)) :=
  Ok [("mean", y_hat); ("lo-80", y_hat); ("hi-80", y_hat)].

Definition with_bounds (params : list string) : Reconciler :=
  {| type_name := "WithBounds"; dict := []; parameters := params;
     call := bounds_call |}.

(** Two models, one whose name is part of the other's, and a lower bound
    for the longer one only. *)
Definition Y_hat_ETS : DataFrame :=
  {| index := idx6; ds := ds6;
     columns := [("ETS", tens); ("AutoETS", tens); ("AutoETS-lo-80", sevens)] |}.

(** A ragged table: three timestamps for [total], two for [regionA]. *)
Definition fives : list num := [c 10; c 10; c 10; c 10; c 10].

Definition Y_hat_ragged : DataFrame :=
  {| index := ["total"; "total"; "total"; "regionA"; "regionA"];
     ds := [1; 2; 3; 1; 2];
     columns := [("naive", fives)] |}.

(** A dictionary with one key of the shared context. *)
Definition only_S : gmap string val := <["S" := VBool true]> ∅.

(** A dictionary with the historical matrix as well. *)
Definition ctx_A : gmap string val :=
  <["y_insample" := VMatrix (astype_float32 tens_matrix)]> only_S.

(** The shared context of the two series. *)
Definition ctx_naive : gmap string val :=
  <["tags" := VTags [("top", [0]); ("bottom", [1])]]>
    (<["idx_bottom" := VIndexer [1]]>
       (<["S" := VMatrix (astype_float32 [[c 1]; [c 1]])]>
          (<["y_insample" := VMatrix (astype_float32 tens_matrix)]> ∅))).

(** What [reconcile] returns for the table with the lower bound, level 80
    and the pass-through method given the level and the scale. *)
Definition fcsts_pi : DataFrame :=
  {| index := idx6; ds := ds6;
     columns := [("naive", tens); ("naive-lo-80", sevens); ("naive/Passthrough", tens);
                 ("naive/Passthrough-lo-80", tens); ("naive/Passthrough-hi-80", tens)] |}.

(** A table that already has a column with the name of the mean column
    of [naive] and the pass-through method, and what [reconcile] returns
    for it. *)
Definition Y_hat_taken : DataFrame :=
  {| index := idx6; ds := ds6;
     columns := [("naive", tens); ("naive/Passthrough", sevens)] |}.

Definition fcsts_taken : DataFrame :=
  {| index := idx6; ds := ds6;
     columns := [("naive", tens); ("naive/Passthrough", tens);
                 ("naive/Passthrough/Passthrough", sevens)] |}.

(** What [reconcile] returns for them with the pass-through method. *)
Definition fcsts_naive : DataFrame :=
  {| index := idx6; ds := ds6;
     columns := [("naive", tens); ("naive/Passthrough", tens)] |}.

End Examples.

(** * The vocabulary of the properties *)

Definition is_substring (needle hay : string) : Prop :=
  exists pre post : string, hay = pre ++ needle ++ post.

(** A text without underscore, followed by nothing or by an underscore and
    more, is read back in one way. *)
Definition field_end (t : string) : Prop :=
  t = "" \/ exists r : string, t = String "_" r.

Definition render (kv : string * pyval) : string :=
  fst kv ++ "-" ++ py_str (snd kv).

(** Two reconcilers of one type: a single hyperparameter whose text has
    an underscore, and two hyperparameters that spell the same text. *)
Definition mintrace (d : list (string * pyval)) : Reconciler :=
  {| type_name := "MinTrace"; dict := d; parameters := ["y_hat"];
     call := Examples.passthrough_call |}.

Definition interval_marked (name : string) : bool :=
  contains "-lo" name || contains "-hi" name.

(** The labels [S.loc[uids]] reports. *)
Definition missing_from (S : SFrame) (uids : list string) : list string :=
  List.filter (fun u => negb (bool_decide (u ∈ s_index S))) uids.

(** Every column has one cell per row. *)
Definition well_formed (df : DataFrame) : Prop :=
  length (ds df) = length (index df)
  /\ Forall (fun c => length (snd c) = length (index df)) (columns df).

(** [b] has the rows of [a], in the same order, and the columns of [a]
    whose name has no slash, unchanged. *)
Definition extends (a b : DataFrame) : Prop :=
  index b = index a
  /\ ds b = ds a
  /\ (forall n, ~ is_substring "/" n -> get_column b n = get_column a n)
  /\ (forall n, n ∈ column_names a -> n ∈ column_names b)
  /\ (well_formed a -> well_formed b).

(** The cell of a matrix at a row and a column. *)
Definition cell (m : matrix) (i j : nat) : option num :=
  row ← m !! i; row !! j.

(** A method whose signature names the level list and the bootstrap
    inputs, and not the fitted values. *)
Definition bootstrap_method : Reconciler :=
  Examples.passthrough ["y_hat"; "level"; "bootstrap_samples"; "bootstrap"].

(** The condition of line 106. *)
Definition sigmah_gate (level : option (list Z)) (bootstrap : bool)
    (pi_model_names : list string) (has_level : bool) (model_name : string) : Prop :=
  pi_of pi_model_names model_name = true /\ has_level = true
  /\ level <> None /\ bootstrap = false.

(** The keys the iterations put into the staging dictionary and take out
    of it. *)
Definition staged_keys : list string :=
  ["sigmah"; "level"; "y_hat_insample"; "bootstrap_samples"; "bootstrap"].

(** The two loops of [reconcile], lines 96 to 155. *)
Definition run_loops (Y_hat_df Y_df : DataFrame) (level : option (list Z))
    (bootstrap : bool) (uids pi_model_names model_names : list string)
    (st : gmap string val * DataFrame) (reconcilers : list Reconciler)
  : result (gmap string val * DataFrame) :=
  foldM (per_reconciler Y_hat_df Y_df level bootstrap uids pi_model_names model_names)
        st reconcilers.

(** The name of the mean column of a model and a method, line 143. *)
Definition mean_column (model_name : string) (fn : Reconciler) : string :=
  model_name ++ "/" ++ _build_fn_name fn.

(** Every character of a text passes a test. *)
Fixpoint all_chars (p : ascii -> bool) (s : string) : bool :=
  match s with
  | EmptyString => true
  | String c rest => p c && all_chars p rest
  end.

(** A character that is neither a digit nor a dot. *)
Definition plain_char (c : ascii) : bool :=
  negb (is_digit c) && negb (bool_decide (c = "."%char)).

(** The number a text of digits writes. *)
Definition decimal_value (s : string) : Z :=
  digits_value (list_ascii_of_string s).

(** The names of the interval columns of a model, a method and a level,
    lines 146 and 147. *)
Definition lo_column (model_name : string) (fn : Reconciler) (lv : Z) : string :=
  model_name ++ "/" ++ _build_fn_name fn ++ "-lo-" ++ pretty lv.

Definition hi_column (model_name : string) (fn : Reconciler) (lv : Z) : string :=
  model_name ++ "/" ++ _build_fn_name fn ++ "-hi-" ++ pretty lv.

(** The index and the timestamp column of a table laid out as a grid:
    series after series, each with all the timestamps [ts] in that
    order. *)
Definition grid_index (uids : list string) (ts : list Z) : list string :=
  flat_map (fun u => replicate (length ts) u) uids.

Definition grid_ds (uids : list string) (ts : list Z) : list Z :=
  flat_map (fun _ : string => ts) uids.

(** The names [reconcile] can write, lines 143 to 147: the mean column of
    a model and a reconciler, and their lower and upper columns for the
    levels of the level list. *)
Definition written (reconcilers : list Reconciler) (model_names : list string)
    (level : option (list Z)) (name : string) : Prop :=
  exists fn model_name,
    fn ∈ reconcilers /\ model_name ∈ model_names
    /\ (name = mean_column model_name fn
        \/ exists lv, lv ∈ default [] level
             /\ (name = lo_column model_name fn lv \/ name = hi_column model_name fn lv)).

(** * Properties *)

(** ** Substrings *)

Lemma append_cons (c : ascii) (s t : string) : String c s ++ t = String c (s ++ t).
Proof. reflexivity. Qed.

Lemma append_nil (t : string) : "" ++ t = t.
Proof. reflexivity. Qed.

Lemma prefix_spec (needle hay : string) :
  String.prefix needle hay = true <-> exists post : string, hay = needle ++ post.
Proof.
  revert hay. induction needle as [|a needle IH]; intros hay.
  - destruct hay; simpl; split; eauto.
  - destruct hay as [|b hay]; simpl.
    + split; [discriminate | intros [post H]; discriminate].
    + destruct (ascii_dec a b) as [->|Hne].
      * rewrite IH. split; intros [post H]; exists post;
          rewrite append_cons in *; congruence.
      * split; [discriminate | intros [post H]; rewrite append_cons in H; congruence].
Qed.

Lemma contains_spec (needle hay : string) :
  contains needle hay = true <-> is_substring needle hay.
Proof.
  unfold is_substring. induction hay as [|c hay IH].
  - cbn [contains]. rewrite orb_false_r, prefix_spec. split.
    + intros [post H]. exists "", post. exact H.
    + intros [pre [post H]]. destruct pre; [eauto | discriminate].
  - cbn [contains]. rewrite orb_true_iff, prefix_spec, IH. split.
    + intros [[post H] | [pre [post H]]].
      * exists "", post. exact H.
      * exists (String c pre), post. rewrite append_cons. now rewrite H.
    + intros [pre [post H]]. destruct pre as [|c' pre].
      * left. eauto.
      * right. exists pre, post. rewrite append_cons in H. congruence.
Qed.

Lemma contains_cons_false (needle : string) (c : ascii) (hay : string) :
  contains needle (String c hay) = false -> contains needle hay = false.
Proof. cbn [contains]. intros H. now apply orb_false_iff in H. Qed.

Lemma no_underscore_head (c : ascii) (s : string) :
  contains "_" (String c s) = false -> c <> "_"%char.
Proof.
  cbn [contains]. intros H. apply orb_false_iff in H as [H _].
  simpl in H. destruct (ascii_dec "_" c) as [<-|]; [|congruence].
  destruct s; discriminate.
Qed.

(** ** Reading a level *)

Example first_number_examples :
  first_number "naive-lo-80" = Ok "80"
  /\ first_number "naive-hi-97.5" = Ok "97.5"
  /\ first_number "model1-lo-80" = Ok "1"
  /\ first_number "naive-lo-.5" = Ok ".5"
  /\ first_number "naive-lo-1,5" = Ok "1,5"
  /\ first_number "naive-lo" = Err IndexError.
Proof. repeat split; reflexivity. Qed.

Example py_float_examples :
  py_float "80" = Ok 80%Q
  /\ py_float "80." = Ok 80%Q
  /\ py_float "97.5" = Ok 97.5%Q
  /\ py_float ".5" = Ok 0.5%Q
  /\ is_ok (py_float "1,5") = false
  /\ is_ok (py_float "1.2.3") = false.
Proof. repeat split; reflexivity. Qed.

(** ** Labels *)

Lemma split_at_underscore (v v' t t' : string) :
  contains "_" v = false -> contains "_" v' = false ->
  field_end t -> field_end t' ->
  v ++ t = v' ++ t' -> v = v' /\ t = t'.
Proof.
  revert v'. induction v as [|c v IH]; intros v' Hv Hv' Ht Ht' E.
  - destruct v' as [|c' v']; [auto|]. rewrite append_nil, append_cons in E.
    apply no_underscore_head in Hv'.
    destruct Ht as [->|[r ->]]; [discriminate | congruence].
  - destruct v' as [|c' v']; rewrite ?append_nil, ?append_cons in E.
    + apply no_underscore_head in Hv.
      destruct Ht' as [->|[r ->]]; [discriminate | congruence].
    + injection E as -> E.
      destruct (IH v') as [-> ->]; eauto using contains_cons_false.
Qed.

Lemma build_fn_name_of_render (T : string) (d : list (string * pyval)) :
  build_fn_name_of T d =
  match d with [] => T | _ :: _ => T ++ "_" ++ join "_" (map render d) end.
Proof.
  unfold build_fn_name_of.
  replace (map (fun '(name, value) => name ++ "-" ++ py_str value) d) with (map render d)
    by (apply map_ext; intros [? ?]; reflexivity).
  destruct d; reflexivity.
Qed.

Lemma join_cons (x : string) (l : list string) :
  join "_" (x :: l) = x ++ match l with [] => "" | _ :: _ => "_" ++ join "_" l end.
Proof.
  destruct l; simpl.
  - induction x; rewrite ?append_cons; [reflexivity | congruence].
  - reflexivity.
Qed.

Lemma append_assoc (a b c : string) : (a ++ b) ++ c = a ++ b ++ c.
Proof. induction a; rewrite ?append_cons; [reflexivity | congruence]. Qed.

Lemma join_render_inj (d1 d2 : list (string * pyval)) :
  map fst d1 = map fst d2 ->
  Forall (fun kv => contains "_" (py_str (snd kv)) = false) d1 ->
  Forall (fun kv => contains "_" (py_str (snd kv)) = false) d2 ->
  join "_" (map render d1) = join "_" (map render d2) ->
  map (fun kv => py_str (snd kv)) d1 = map (fun kv => py_str (snd kv)) d2.
Proof.
  revert d2. induction d1 as [|[n1 v1] d1 IH]; intros [|[n2 v2] d2] Hn H1 H2 E;
    try discriminate; [reflexivity|].
  simpl in Hn. injection Hn as <- Hn.
  inversion H1 as [|? ? Hv1 H1']; subst. inversion H2 as [|? ? Hv2 H2']; subst.
  simpl in Hv1, Hv2.
  cbn [map] in E. rewrite !join_cons in E.
  change (render (n1, v1)) with (n1 ++ "-" ++ py_str v1) in E.
  change (render (n1, v2)) with (n1 ++ "-" ++ py_str v2) in E.
  rewrite !append_assoc in E.
  apply String.app_inj in E. rewrite !append_cons, !append_nil in E. injection E as E.
  apply split_at_underscore in E as [Ev Et]; auto.
  - cbn [map]. simpl snd. rewrite Ev. f_equal.
    destruct d1, d2; try discriminate; [reflexivity|].
    apply IH; auto. cbn [map] in Et. now injection Et.
  - destruct (map render d1); [left | right]; eauto.
  - destruct (map render d2); [left | right]; eauto.
Qed.

(** C8, counterexample: two instances of the type [MinTrace] with
    different hyperparameters get the same label, because a value may
    contain the separators the label is built with. *)
Lemma build_fn_name_collision :
  type_name (mintrace [("method", PStr "ols_nonnegative-True")]) =
    type_name (mintrace [("method", PStr "ols"); ("nonnegative", PBool true)])
  /\ dict (mintrace [("method", PStr "ols_nonnegative-True")]) <>
       dict (mintrace [("method", PStr "ols"); ("nonnegative", PBool true)])
  /\ _build_fn_name (mintrace [("method", PStr "ols_nonnegative-True")]) =
       _build_fn_name (mintrace [("method", PStr "ols"); ("nonnegative", PBool true)]).
Proof. split; [reflexivity | split; [discriminate | reflexivity]]. Qed.

(** C8, amended: two instances of one type that have the same
    hyperparameter names in the same order, whose values are written
    without underscore, and whose written values differ somewhere, get
    distinct labels. *)
Theorem build_fn_name_distinct (fn1 fn2 : Reconciler) :
  type_name fn1 = type_name fn2 ->
  map fst (dict fn1) = map fst (dict fn2) ->
  Forall (fun kv => contains "_" (py_str (snd kv)) = false) (dict fn1) ->
  Forall (fun kv => contains "_" (py_str (snd kv)) = false) (dict fn2) ->
  map (fun kv => py_str (snd kv)) (dict fn1) <> map (fun kv => py_str (snd kv)) (dict fn2) ->
  _build_fn_name fn1 <> _build_fn_name fn2.
Proof.
  intros HT Hn H1 H2 Hv E. apply Hv. clear Hv.
  unfold _build_fn_name in E. rewrite !build_fn_name_of_render, HT in E.
  destruct (dict fn1) as [|kv1 d1] eqn:E1, (dict fn2) as [|kv2 d2] eqn:E2;
    try discriminate; [reflexivity|].
  apply String.app_inj, String.app_inj in E.
  now apply join_render_inj.
Qed.

Lemma build_fn_name_distinct_witness :
  _build_fn_name (mintrace [("method", PStr "ols"); ("nonnegative", PBool true)]) <>
  _build_fn_name (mintrace [("method", PStr "wls"); ("nonnegative", PBool true)]).
Proof.
  apply build_fn_name_distinct.
  - reflexivity.
  - reflexivity.
  - repeat constructor.
  - repeat constructor.
  - simpl. discriminate.
Defined.

(** ** The has-intervals flag *)

Lemma filter_filter {A : Type} (p q : A -> bool) (l : list A) :
  List.filter p (List.filter q l) = List.filter (fun x => q x && p x) l.
Proof.
  induction l as [|x l IH]; [reflexivity|]. simpl.
  destruct (q x); simpl; [destruct (p x)|]; congruence.
Qed.

Lemma filter_ext_in {A : Type} (p q : A -> bool) (l : list A) :
  (forall x, In x l -> p x = q x) -> List.filter p l = List.filter q l.
Proof.
  induction l as [|x l IH]; intros H; [reflexivity|]. simpl.
  rewrite (H x) by now left. rewrite IH; [reflexivity|].
  intros y Hy. apply H. now right.
Qed.

Lemma interval_marked_not_dropped (Y_hat_df : DataFrame) (name : string) :
  interval_marked name = true ->
  negb (bool_decide (name ∈ drop_cols Y_hat_df)) = true.
Proof.
  intros Hm. apply negb_true_iff, bool_decide_eq_false. intros Hin.
  assert (name = "ds" \/ name = "y") as [-> | ->]; try discriminate.
  unfold drop_cols in Hin. destruct (in_columns "y" Y_hat_df).
  - apply elem_of_cons in Hin as [-> | Hin]; [now left|].
    apply elem_of_cons in Hin as [-> | Hin]; [now right|]. inversion Hin.
  - apply elem_of_cons in Hin as [-> | Hin]; [now left|]. inversion Hin.
Qed.

(** The interval columns that match a model are the columns of the table
    whose name has an interval marker and contains the model's name. *)
Lemma pi_model_name_of_columns (Y_hat_df : DataFrame) (m : string) :
  pi_model_name_of (pi_model_names_of Y_hat_df) m =
  List.filter (fun c => interval_marked c && contains m c) (column_names Y_hat_df).
Proof.
  unfold pi_model_name_of, pi_model_names_of, all_model_names.
  rewrite !filter_filter. apply filter_ext_in. intros c _.
  fold (interval_marked c).
  destruct (interval_marked c) eqn:Hm.
  - now rewrite (interval_marked_not_dropped Y_hat_df c Hm).
  - now rewrite andb_false_r.
Qed.

Lemma first_filter {A : Type} (p : A -> bool) (l : list A) :
  first (List.filter p l) =
  match List.find p l with Some x => Ok x | None => Err IndexError end.
Proof.
  induction l as [|x l IH]; [reflexivity|]. simpl. now destruct (p x).
Qed.

Lemma filter_nonempty {A : Type} (p : A -> bool) (l : list A) :
  (0 < length (List.filter p l))%nat <-> exists x, In x l /\ p x = true.
Proof.
  split.
  - destruct (List.filter p l) as [|x r] eqn:E; simpl; [lia|]. intros _.
    exists x. apply filter_In. rewrite E. now left.
  - intros [x Hx]. apply filter_In in Hx.
    destruct (List.filter p l); [destruct Hx | simpl; lia].
Qed.

(** The model [ETS] has no interval column of its own; the lower bound of
    [AutoETS] contains its name, sets its flag, and is the column its scale
    is recovered from. *)
Example has_intervals_of_other_model :
  model_names_of Examples.Y_hat_ETS = ["ETS"; "AutoETS"]
  /\ pi_model_names_of Examples.Y_hat_ETS = ["AutoETS-lo-80"]
  /\ pi_of (pi_model_names_of Examples.Y_hat_ETS) "ETS" = true
  /\ first (pi_model_name_of (pi_model_names_of Examples.Y_hat_ETS) "ETS") = Ok "AutoETS-lo-80"
  /\ (staged <- stage_sigmah Examples.Y_hat_ETS (Some [80]) false ["total"; "regionA"]
                  (pi_model_names_of Examples.Y_hat_ETS) true "ETS"
                  Examples.tens_matrix ∅ ;;
      dict_get staged "sigmah") =
     Ok (VMatrix (interval_to_scale (-1) 80 Examples.tens_matrix Examples.sevens_matrix)).
Proof. repeat split; vm_compute; reflexivity. Qed.

(** ** The result monad *)

Lemma bind_Ok {A B : Type} (r : result A) (k : A -> result B) (b : B) :
  bind r k = Ok b -> exists a : A, r = Ok a /\ k a = Ok b.
Proof. destruct r as [a|e]; simpl; [eauto | discriminate]. Qed.

Ltac bind_ok H :=
  let x := fresh "x" in
  let Hx := fresh "H" x in
  apply bind_Ok in H as (x & Hx & H).

Tactic Notation "invert_bind" hyp(H) "as" ident(x) ident(Hx) :=
  apply bind_Ok in H as (x & Hx & H).

Lemma foldM_invariant {A B : Type} (R : A -> A -> Prop) (f : A -> B -> result A) :
  (forall a, R a a) ->
  (forall a b c, R a b -> R b c -> R a c) ->
  (forall a b a', f a b = Ok a' -> R a a') ->
  forall (l : list B) (a a' : A), foldM f a l = Ok a' -> R a a'.
Proof.
  intros Hrefl Htrans Hstep l. induction l as [|b l IH]; intros a a' H; simpl in H.
  - injection H as <-. apply Hrefl.
  - bind_ok H. eauto.
Qed.

(** ** Series that the aggregation matrix does not have *)

Lemma elem_of_unique_from {A : Type} `{EqDecision A} (seen l : list A) (x : A) :
  x ∈ unique_from seen l <-> x ∈ l /\ x ∉ seen.
Proof.
  revert seen. induction l as [|y l IH]; intros seen; simpl.
  - split; [intros H; inversion H | intros [H _]; inversion H].
  - destruct (bool_decide_reflect (y ∈ seen)) as [Hy|Hy].
    + rewrite IH, elem_of_cons. split; [tauto|].
      intros [[->|Hx] Hs]; [contradiction | tauto].
    + rewrite elem_of_cons, IH, !elem_of_cons. split.
      * intros [->|[Hx Hs]]; [tauto|]. split; [tauto|]. intros Hs'. apply Hs. now right.
      * intros [[->|Hx] Hs]; [tauto|].
        destruct (decide (x = y)) as [->|Hne]; [tauto|].
        right. split; [exact Hx|]. intros [?|?]; contradiction.
Qed.

Lemma elem_of_unique {A : Type} `{EqDecision A} (l : list A) (x : A) :
  x ∈ unique l <-> x ∈ l.
Proof.
  unfold unique. rewrite elem_of_unique_from. split; [tauto|].
  intros H0. split; [exact H0|]. intros H1. inversion H1.
Qed.

(** C4: when a series of the base-forecast table is not in the row index
    of the aggregation matrix, [reconcile] raises the [KeyError] of
    [S.loc[uids]], which names that series, and returns no table. *)
Theorem reconcile_hierarchy_mismatch (reconcilers : list Reconciler)
    (Y_hat_df Y_df : DataFrame) (S : SFrame) (tags : list (string * list string))
    (level : option (list Z)) (bootstrap : bool) (u : string) :
  u ∈ index Y_hat_df ->
  u ∉ s_index S ->
  u ∈ missing_from S (unique (index Y_hat_df))
  /\ reconcile reconcilers Y_hat_df Y_df S tags level bootstrap =
     Err (KeyError (missing_from S (unique (index Y_hat_df)))).
Proof.
  intros Hin Hout.
  assert (Hm : u ∈ missing_from S (unique (index Y_hat_df))).
  { unfold missing_from. rewrite list_elem_of_In. apply filter_In. split.
    - rewrite <- list_elem_of_In. now apply elem_of_unique.
    - apply negb_true_iff. now apply bool_decide_eq_false. }
  split; [exact Hm|].
  unfold reconcile, build_common_vals, s_loc. fold (missing_from S (unique (index Y_hat_df))).
  destruct (missing_from S (unique (index Y_hat_df))) as [|m ms]; [inversion Hm | reflexivity].
Qed.

Lemma reconcile_hierarchy_mismatch_witness :
  "regionB" ∈ missing_from Examples.S2 (unique ["total"; "regionB"])
  /\ reconcile [Examples.passthrough ["y_hat"]]
       {| index := ["total"; "regionB"]; ds := [1; 1];
          columns := [("naive", [Examples.c 10; Examples.c 10])] |}
       Examples.Y_train Examples.S2 Examples.tags2 None false =
     Err (KeyError (missing_from Examples.S2 (unique ["total"; "regionB"]))).
Proof.
  apply (reconcile_hierarchy_mismatch [Examples.passthrough ["y_hat"]]
           {| index := ["total"; "regionB"]; ds := [1; 1];
              columns := [("naive", [Examples.c 10; Examples.c 10])] |}
           Examples.Y_train Examples.S2 Examples.tags2 None false "regionB").
  - apply (bool_decide_unpack _). vm_compute. exact I.
  - apply (bool_decide_unpack _). vm_compute. exact I.
Defined.

(** ** Rows of the result table *)

Lemma extends_refl (a : DataFrame) : extends a a.
Proof. unfold extends. auto. Qed.

Lemma extends_trans (a b c : DataFrame) : extends a b -> extends b c -> extends a c.
Proof.
  intros (Hi & Hd & Hg & Hn & Hw) (Hi' & Hd' & Hg' & Hn' & Hw').
  unfold extends. split; [congruence|]. split; [congruence|].
  split; [|split]; auto.
  intros n Hs. rewrite Hg', Hg; auto.
Qed.

Lemma find_assign_other (cols : list (string * list num)) (name n : string)
    (values : list num) :
  n <> name ->
  snd <$> list_find (fun c => fst c = n) (assign_column cols name values) =
  snd <$> list_find (fun c => fst c = n) cols.
Proof.
  intros Hne. induction cols as [|[m c] cols IH]; simpl.
  - rewrite decide_False by (simpl; congruence). reflexivity.
  - destruct (bool_decide_reflect (m = name)) as [->|Hm]; simpl.
    + rewrite !decide_False by (simpl; congruence). reflexivity.
    + destruct (decide (m = n)) as [->|Hmn]; [reflexivity|].
      destruct (list_find _ (assign_column cols name values)) as [[? ?]|],
               (list_find _ cols) as [[? ?]|]; simpl in *; congruence.
Qed.

Lemma names_assign (cols : list (string * list num)) (name n : string) (values : list num) :
  n ∈ map fst cols -> n ∈ map fst (assign_column cols name values).
Proof.
  induction cols as [|[m c] cols IH]; simpl; [intros H; inversion H|].
  destruct (bool_decide_reflect (m = name)) as [->|Hm]; simpl; [auto|].
  rewrite !elem_of_cons. intros [->|H]; auto.
Qed.

Lemma Forall_assign (P : string * list num -> Prop) (cols : list (string * list num))
    (name : string) (values : list num) :
  (forall n, P (n, values)) -> Forall P cols -> Forall P (assign_column cols name values).
Proof.
  intros Hv. induction 1 as [|[m c] cols Hc Hcols IH]; simpl.
  - constructor; [apply Hv | constructor].
  - destruct (bool_decide (m = name)); constructor; auto.
Qed.

Lemma set_column_extends (a b : DataFrame) (name : string) (values : list num) :
  is_substring "/" name -> set_column a name values = Ok b -> extends a b.
Proof.
  unfold set_column. intros Hs H.
  destruct (bool_decide_reflect (length values = length (index a))) as [Hl|]; [|discriminate].
  injection H as <-. unfold extends, well_formed, get_column, column_names. simpl.
  repeat split; auto.
  - intros n Hn. assert (Hne : n <> name) by (intros ->; contradiction).
    pose proof (find_assign_other (columns a) name n values Hne) as E.
    destruct (list_find _ (assign_column (columns a) name values)) as [[? ?]|],
             (list_find _ (columns a)) as [[? ?]|]; simpl in E; congruence.
  - intros n. apply names_assign.
  - tauto.
  - destruct H as [_ H]. apply Forall_assign; auto.
Qed.

Lemma slash_in_name (model_name rest : string) : is_substring "/" (model_name ++ "/" ++ rest).
Proof. exists model_name, rest. reflexivity. Qed.

Section Rows.

Variables (Y_hat_df Y_df : DataFrame).
Variables (level : option (list Z)) (bootstrap : bool).
Variables (uids pi_model_names : list string).

Lemma write_level_extends (model_name fn_name : string)
    (fcsts_model : list (string * matrix)) (a b : DataFrame) (lv : Z) :
  write_level model_name fn_name fcsts_model a lv = Ok b -> extends a b.
Proof.
  unfold write_level. intros H. bind_ok H. bind_ok H. bind_ok H.
  eapply extends_trans; eapply set_column_extends; eauto using slash_in_name.
Qed.

Lemma write_extends (has_level : bool) (model_name fn_name : string)
    (fcsts_model : list (string * matrix)) (a b : DataFrame) :
  write level bootstrap pi_model_names has_level model_name fn_name fcsts_model a = Ok b ->
  extends a b.
Proof.
  unfold write. intros H. bind_ok H. bind_ok H.
  eapply extends_trans; [eapply set_column_extends; eauto using slash_in_name|].
  destruct (_ || _).
  - eapply (foldM_invariant extends); eauto using extends_refl, extends_trans,
      write_level_extends.
  - injection H as <-. apply extends_refl.
Qed.

Lemma iteration_extends (fn : Reconciler) (fn_name : string) (has_fitted has_level : bool)
    (st st' : gmap string val * DataFrame) (model_name : string) :
  iteration Y_hat_df Y_df level bootstrap uids pi_model_names fn fn_name
            has_fitted has_level st model_name = Ok st' ->
  extends (snd st) (snd st').
Proof.
  unfold iteration. intros H. bind_ok H. bind_ok H. bind_ok H. bind_ok H.
  injection H as <-. simpl. eauto using write_extends.
Qed.

Lemma per_reconciler_extends (model_names : list string)
    (st st' : gmap string val * DataFrame) (fn : Reconciler) :
  per_reconciler Y_hat_df Y_df level bootstrap uids pi_model_names model_names st fn
    = Ok st' ->
  extends (snd st) (snd st').
Proof.
  unfold per_reconciler.
  apply (foldM_invariant (fun s s' => extends (snd s) (snd s')));
    eauto using extends_refl, extends_trans, iteration_extends.
Qed.

End Rows.

(** ** Staging the scale estimate *)

Section Staging.

Variables (Y_hat_df Y_df : DataFrame).
Variables (level : option (list Z)) (bootstrap : bool).
Variables (uids pi_model_names : list string).

Lemma sigmah_gate_bool (has_level : bool) (model_name : string) :
  pi_of pi_model_names model_name && has_level && is_not_None level && negb bootstrap = true
  <-> sigmah_gate level bootstrap pi_model_names has_level model_name.
Proof.
  unfold sigmah_gate. rewrite !andb_true_iff, negb_true_iff.
  destruct level; simpl; intuition congruence.
Qed.

Lemma pi_first (model_name : string) :
  pi_of pi_model_names model_name = true ->
  exists pi_col, first (pi_model_name_of pi_model_names model_name) = Ok pi_col.
Proof.
  unfold pi_of. rewrite bool_decide_eq_true.
  destruct (pi_model_name_of pi_model_names model_name); simpl; [lia | eauto].
Qed.

End Staging.

Lemma del_Ok (key : string) (d d' : gmap string val) :
  del key d = Ok d' -> d' = delete key d.
Proof. unfold del. destruct (d !! key); [congruence | discriminate]. Qed.

Lemma stage_fitted_sigmah (Y_df : DataFrame) (level : option (list Z)) (bootstrap : bool)
    (uids : list string) (has_fitted has_level : bool) (model_name : string)
    (y_hat_model : matrix) (common_vals staged : gmap string val) :
  stage_fitted Y_df level bootstrap uids has_fitted has_level model_name y_hat_model
               common_vals = Ok staged ->
  staged !! "sigmah" = common_vals !! "sigmah".
Proof.
  unfold stage_fitted. intros H.
  destruct (has_fitted || bootstrap); [|congruence].
  destruct (in_columns model_name Y_df).
  - invert_bind H as fitted Hfit. destruct (bootstrap && has_level).
    + invert_bind H as y_insample Hy. injection H as <-.
      rewrite !lookup_insert_ne by discriminate.
      destruct has_fitted; [now rewrite lookup_insert_ne by discriminate | reflexivity].
    + injection H as <-.
      destruct has_fitted; [now rewrite lookup_insert_ne by discriminate | reflexivity].
  - injection H as <-. now rewrite lookup_insert_ne by discriminate.
Qed.

(** No iteration starts with a scale estimate in the dictionary: the
    context [reconcile] builds has none, and an iteration that completes
    leaves none. *)
Lemma build_common_vals_sigmah (Y_df : DataFrame) (S : SFrame)
    (tags : list (string * list string)) (uids : list string)
    (common_vals : gmap string val) :
  build_common_vals Y_df S tags uids = Ok common_vals -> common_vals !! "sigmah" = None.
Proof.
  unfold build_common_vals. intros H.
  invert_bind H as S_ HS. invert_bind H as y_insample Hy.
  invert_bind H as idx_bottom Hi. invert_bind H as tags' Ht. injection H as <-.
  now rewrite !lookup_insert_ne by discriminate.
Qed.

Lemma iteration_sigmah_absent (Y_hat_df Y_df : DataFrame) (level : option (list Z))
    (bootstrap : bool) (uids pi_model_names : list string) (fn : Reconciler)
    (fn_name : string) (has_fitted has_level : bool)
    (st st' : gmap string val * DataFrame) (model_name : string) :
  iteration Y_hat_df Y_df level bootstrap uids pi_model_names fn fn_name has_fitted
            has_level st model_name = Ok st' ->
  fst st !! "sigmah" = None -> fst st' !! "sigmah" = None.
Proof.
  intros H Hs. unfold iteration in H.
  invert_bind H as staged Hst. invert_bind H as fcsts_model Hcall.
  invert_bind H as written Hw. invert_bind H as purged Hp. injection H as <-. simpl.
  unfold stage in Hst. invert_bind Hst as y Hy. invert_bind Hst as cv1 H1.
  invert_bind Hst as cv2 H2. injection Hst as <-. simpl in Hp.
  apply stage_fitted_sigmah in H2. unfold stage_sigmah, purge in *.
  invert_bind Hp as cv3 H3.
  assert (cv3 !! "sigmah" = None) as Hcv3.
  { destruct (pi_of pi_model_names model_name && has_level && is_not_None level) eqn:G.
    - destruct bootstrap; simpl in *.
      + injection H1 as <-.
        invert_bind H3 as c1 Hc1. invert_bind H3 as c2 Hc2.
        apply del_Ok in Hc1, Hc2, H3. subst.
        rewrite !lookup_delete_ne by discriminate. congruence.
      + invert_bind H3 as c1 Hc1. apply del_Ok in H3. subst. apply lookup_delete_eq.
    - simpl in H1. injection H1 as <-.
      destruct (bootstrap && is_not_None level); simpl in H3.
      + invert_bind H3 as c1 Hc1. destruct (negb bootstrap).
        * apply del_Ok in H3. subst. apply lookup_delete_eq.
        * invert_bind H3 as c2 Hc2. apply del_Ok in Hc1, Hc2, H3. subst.
          rewrite !lookup_delete_ne by discriminate. congruence.
      + injection H3 as <-. congruence. }
  destruct has_fitted.
  - apply del_Ok in Hp. subst. now rewrite lookup_delete_ne by discriminate.
  - now injection Hp as <-.
Qed.

Lemma lookup_map {A B : Type} (f : A -> B) (l : list A) (i : nat) :
  map f l !! i = f <$> l !! i.
Proof. revert i. induction l; intros [|i]; simpl; auto. Qed.

(** Every cell of the estimate is [sign * (point - bound) / z]. *)
Lemma interval_to_scale_cell (sign : Z) (level_col : Q) (y_hat_model bound : matrix)
    (i j : nat) (p b : num) :
  cell y_hat_model i j = Some p ->
  cell bound i j = Some b ->
  cell (interval_to_scale sign level_col y_hat_model bound) i j =
  Some (Div (Mul (Const (inject_Z sign)) (Sub p b)) (z_score level_col)).
Proof.
  unfold cell, interval_to_scale, mat_map, mat_sub, matrix in *. intros Hp Hb.
  destruct (y_hat_model !! i) as [rp|] eqn:Ep; [|discriminate].
  destruct (bound !! i) as [rb|] eqn:Eb; [|discriminate]. simpl in Hp, Hb.
  rewrite !lookup_map, lookup_zip_with, Ep, Eb. simpl.
  rewrite !lookup_map, lookup_zip_with, Hp, Hb. reflexivity.
Qed.

(** C2, counterexample: the four conditions hold, and nothing is staged.
    The column [naive-low] has the marker [-lo] and the model's name, and
    no number: [re.findall] returns an empty list and line 114 raises
    [IndexError].  The first number in [GARCH(1,1)-lo-80] is [1,1], which
    [float] refuses with [ValueError].  The call of [reconcile] ends with
    that exception. *)
Lemma sigmah_not_staged_for_unreadable_level :
  sigmah_gate (Some [80]) false ["naive-low"] true "naive"
  /\ pi_model_names_of (Examples.Y_hat_with "naive" "naive-low" Examples.sevens) = ["naive-low"]
  /\ stage_sigmah (Examples.Y_hat_with "naive" "naive-low" Examples.sevens)
                  (Some [80]) false ["total"; "regionA"] ["naive-low"] true "naive"
                  Examples.tens_matrix ∅ = Err IndexError
  /\ reconcile [Examples.passthrough ["y_hat"; "level"; "sigmah"]]
               (Examples.Y_hat_with "naive" "naive-low" Examples.sevens)
               Examples.Y_train Examples.S2 Examples.tags2 (Some [80]) false = Err IndexError
  /\ sigmah_gate (Some [80]) false ["GARCH(1,1)-lo-80"] true "GARCH(1,1)"
  /\ stage_sigmah (Examples.Y_hat_with "GARCH(1,1)" "GARCH(1,1)-lo-80" Examples.sevens)
                  (Some [80]) false ["total"; "regionA"] ["GARCH(1,1)-lo-80"] true
                  "GARCH(1,1)" Examples.tens_matrix ∅ =
     Err (ValueError "could not convert string to float: 1,1").
Proof.
  repeat split; solve [discriminate | vm_compute; reflexivity].
Qed.

(** C2, amended: in an iteration whose chosen column, the first interval
    column that matches the model, has a name with a number [float]
    accepts and can be pivoted, lines 106 to 119 raise nothing, and they
    put [sigmah] into the staging dictionary exactly when the model has an
    interval column, the method's signature names [level], a level list was
    passed and bootstrap is off.  The value staged is computed from that
    one column. *)
Theorem sigmah_staged_iff_readable (Y_hat_df : DataFrame) (level : option (list Z))
    (bootstrap : bool) (uids pi_model_names : list string) (has_level : bool)
    (model_name : string) (y_hat_model : matrix) (common_vals : gmap string val) :
  common_vals !! "sigmah" = None ->
  (forall pi_col, first (pi_model_name_of pi_model_names model_name) = Ok pi_col ->
     is_ok (level_of pi_col) = true
     /\ is_ok (pivot_loc_values Y_hat_df pi_col uids) = true) ->
  exists staged : gmap string val,
    stage_sigmah Y_hat_df level bootstrap uids pi_model_names has_level model_name
                 y_hat_model common_vals = Ok staged
    /\ (is_Some (staged !! "sigmah") <->
        sigmah_gate level bootstrap pi_model_names has_level model_name)
    /\ (sigmah_gate level bootstrap pi_model_names has_level model_name ->
        exists pi_col level_col bound,
          first (pi_model_name_of pi_model_names model_name) = Ok pi_col
          /\ level_of pi_col = Ok level_col
          /\ pivot_loc_values Y_hat_df pi_col uids = Ok bound
          /\ staged !! "sigmah" =
             Some (VMatrix (interval_to_scale (sign_of pi_col) level_col y_hat_model bound))
          /\ forall i j p b,
               cell y_hat_model i j = Some p -> cell bound i j = Some b ->
               cell (interval_to_scale (sign_of pi_col) level_col y_hat_model bound) i j =
               Some (Div (Mul (Const (inject_Z (sign_of pi_col))) (Sub p b))
                         (Ppf (Add (Const (1 # 2)) (Div (Const level_col) (Const 200)))))).
Proof.
  intros Habsent Hread. unfold stage_sigmah.
  destruct (_ && _ && _ && _) eqn:G.
  - apply sigmah_gate_bool in G. pose proof G as (Hpi & _).
    apply pi_first in Hpi as [pi_col Hfirst]. rewrite Hfirst. simpl.
    destruct (Hread pi_col Hfirst) as [Hl Hp].
    destruct (level_of pi_col) as [level_col|e] eqn:El; [|discriminate].
    destruct (pivot_loc_values Y_hat_df pi_col uids) as [bound|e] eqn:Ep; [|discriminate].
    simpl. eexists. split; [reflexivity|].
    rewrite lookup_insert_ne by discriminate. rewrite lookup_insert_eq.
    split; [split; eauto|]. intros _. exists pi_col, level_col, bound.
    repeat split; auto. intros i j p b. apply interval_to_scale_cell.
  - exists common_vals. split; [reflexivity|]. rewrite Habsent.
    assert (Hno : ~ sigmah_gate level bootstrap pi_model_names has_level model_name)
      by (intros Hg; apply sigmah_gate_bool in Hg; congruence).
    split; [split; [intros [? ?]; discriminate | contradiction] | contradiction].
Qed.

Lemma sigmah_staged_iff_readable_witness :
  exists staged : gmap string val,
    stage_sigmah Examples.Y_hat_pi (Some [80]) false ["total"; "regionA"]
                 ["naive-lo-80"] true "naive" Examples.tens_matrix ∅ = Ok staged
    /\ (is_Some (staged !! "sigmah") <->
        sigmah_gate (Some [80]) false ["naive-lo-80"] true "naive")
    /\ (sigmah_gate (Some [80]) false ["naive-lo-80"] true "naive" ->
        exists pi_col level_col bound,
          first (pi_model_name_of ["naive-lo-80"] "naive") = Ok pi_col
          /\ level_of pi_col = Ok level_col
          /\ pivot_loc_values Examples.Y_hat_pi pi_col ["total"; "regionA"] = Ok bound
          /\ staged !! "sigmah" =
             Some (VMatrix (interval_to_scale (sign_of pi_col) level_col
                                              Examples.tens_matrix bound))
          /\ forall i j p b,
               cell Examples.tens_matrix i j = Some p -> cell bound i j = Some b ->
               cell (interval_to_scale (sign_of pi_col) level_col Examples.tens_matrix bound)
                    i j =
               Some (Div (Mul (Const (inject_Z (sign_of pi_col))) (Sub p b))
                         (Ppf (Add (Const (1 # 2)) (Div (Const level_col) (Const 200)))))).
Proof.
  apply (sigmah_staged_iff_readable Examples.Y_hat_pi (Some [80]) false ["total"; "regionA"]
           ["naive-lo-80"] true "naive" Examples.tens_matrix ∅).
  - reflexivity.
  - intros pi_col H. vm_compute in H. injection H as <-.
    split; vm_compute; reflexivity.
Defined.

(** The iteration of the witness does stage the estimate, from the lower
    bound at level 80. *)
Example sigmah_staged_for_naive :
  (staged <- stage_sigmah Examples.Y_hat_pi (Some [80]) false ["total"; "regionA"]
               ["naive-lo-80"] true "naive" Examples.tens_matrix ∅ ;;
   dict_get staged "sigmah") =
  Ok (VMatrix (interval_to_scale (-1) 80 Examples.tens_matrix Examples.sevens_matrix)).
Proof. vm_compute. reflexivity. Qed.

(** ** The interval-to-scale estimator *)

(** A lower-bound column, one whose name has the marker [-lo], always gets
    the sign -1. *)
Lemma sign_of_lower (pi_col : string) :
  contains "-lo" pi_col = true -> sign_of pi_col = -1.
Proof.
  intros H. unfold sign_of. apply contains_spec in H as (pre & post & ->).
  replace (contains "lo" (pre ++ "-lo" ++ post)) with true; [reflexivity|].
  symmetry. apply contains_spec. exists (pre ++ "-"), post.
  now rewrite append_assoc.
Qed.

(** C3, at the failing inputs.  The column [slow-hi-80] is the upper bound
    of the model [slow]: line 83 takes it for an interval column because
    of [-hi], and it has no [-lo].  Line 112 tests ['lo' in pi_col], finds
    the [lo] of [slow], and the estimate is computed with the sign -1.
    The column [model1-lo-80] is a bound at level 80; the first number in
    its name is the 1 of the model, and [z] is computed for the level 1. *)
Theorem estimator_side_and_level_from_name :
  interval_marked "slow-hi-80" = true
  /\ contains "-lo" "slow-hi-80" = false
  /\ sign_of "slow-hi-80" = -1
  /\ (staged <- stage_sigmah (Examples.Y_hat_with "slow" "slow-hi-80" Examples.thirteens)
                  (Some [80]) false ["total"; "regionA"] ["slow-hi-80"] true "slow"
                  Examples.tens_matrix ∅ ;;
      dict_get staged "sigmah") =
     Ok (VMatrix (interval_to_scale (-1) 80 Examples.tens_matrix Examples.thirteens_matrix))
  /\ level_of "model1-lo-80" = Ok 1%Q
  /\ (staged <- stage_sigmah (Examples.Y_hat_with "model1" "model1-lo-80" Examples.sevens)
                  (Some [80]) false ["total"; "regionA"] ["model1-lo-80"] true "model1"
                  Examples.tens_matrix ∅ ;;
      dict_get staged "sigmah") =
     Ok (VMatrix (interval_to_scale (-1) 1 Examples.tens_matrix Examples.sevens_matrix)).
Proof. repeat split; vm_compute; reflexivity. Qed.

(** ** Levels are not checked *)

(** C5, counterexample: a bound column at level 0 and one at level 100.
    No error is raised: the estimate is staged, with the quotient by
    [norm.ppf(0.5)] and by [norm.ppf(1.0)] in its cells. *)
Lemma level_0_and_100_accepted :
  level_of "naive-lo-0" = Ok 0%Q
  /\ (staged <- stage_sigmah (Examples.Y_hat_with "naive" "naive-lo-0" Examples.sevens)
                  (Some [80]) false ["total"; "regionA"] ["naive-lo-0"] true "naive"
                  Examples.tens_matrix ∅ ;;
      dict_get staged "sigmah") =
     Ok (VMatrix (interval_to_scale (-1) 0 Examples.tens_matrix Examples.sevens_matrix))
  /\ level_of "naive-hi-100" = Ok 100%Q
  /\ (staged <- stage_sigmah (Examples.Y_hat_with "naive" "naive-hi-100" Examples.thirteens)
                  (Some [80]) false ["total"; "regionA"] ["naive-hi-100"] true "naive"
                  Examples.tens_matrix ∅ ;;
      dict_get staged "sigmah") =
     Ok (VMatrix (interval_to_scale 1 100 Examples.tens_matrix Examples.thirteens_matrix)).
Proof. repeat split; vm_compute; reflexivity. Qed.

(** C5, amended: the estimator does not check the level.  Whatever number
    the name of the chosen column gives, 0, 100 and numbers outside
    (0,100) included, lines 106 to 119 raise nothing and stage
    [sign * (y_hat_model - bound) / norm.ppf(0.5 + level_col / 200)]
    and the level list. *)
Theorem level_not_checked (Y_hat_df : DataFrame) (level : option (list Z))
    (bootstrap : bool) (uids pi_model_names : list string) (has_level : bool)
    (model_name : string) (y_hat_model : matrix) (common_vals : gmap string val)
    (pi_col : string) (level_col : Q) (bound : matrix) :
  sigmah_gate level bootstrap pi_model_names has_level model_name ->
  first (pi_model_name_of pi_model_names model_name) = Ok pi_col ->
  level_of pi_col = Ok level_col ->
  pivot_loc_values Y_hat_df pi_col uids = Ok bound ->
  stage_sigmah Y_hat_df level bootstrap uids pi_model_names has_level model_name
               y_hat_model common_vals =
  Ok (<["level" := level_val level]>
        (<["sigmah" := VMatrix (interval_to_scale (sign_of pi_col) level_col
                                                  y_hat_model bound)]> common_vals)).
Proof.
  intros G Hfirst Hl Hp. unfold stage_sigmah.
  apply sigmah_gate_bool in G. rewrite G, Hfirst. simpl.
  rewrite Hl. simpl. rewrite Hp. reflexivity.
Qed.

Lemma level_not_checked_witness :
  stage_sigmah (Examples.Y_hat_with "naive" "naive-hi-100" Examples.thirteens)
               (Some [80]) false ["total"; "regionA"] ["naive-hi-100"] true "naive"
               Examples.tens_matrix ∅ =
  Ok (<["level" := level_val (Some [80])]>
        (<["sigmah" := VMatrix (interval_to_scale (sign_of "naive-hi-100") 100
                                  Examples.tens_matrix Examples.thirteens_matrix)]> ∅)).
Proof.
  apply (level_not_checked (Examples.Y_hat_with "naive" "naive-hi-100" Examples.thirteens)
           (Some [80]) false ["total"; "regionA"] ["naive-hi-100"] true "naive"
           Examples.tens_matrix ∅ "naive-hi-100" 100 Examples.thirteens_matrix).
  - repeat split; solve [discriminate | vm_compute; reflexivity].
  - reflexivity.
  - vm_compute. reflexivity.
  - vm_compute. reflexivity.
Defined.

(** ** What an iteration leaves in the staging dictionary *)

(** C1, at the failing input: bootstrap mode, no level list, the models
    [A] and [B], fitted values for [A] only.  The iteration of [A] stages
    [bootstrap_samples], [bootstrap] and [level]; the condition of line
    144 asks for a level list, so nothing is deleted.  The iteration of
    [B] stages none of them and calls the method with the samples drawn
    for [A]; and the null [y_hat_insample] it stages (line 139) is not
    deleted either, because line 154 asks for the method to name it. *)
Theorem staged_fields_leak :
  (cv0 <- build_common_vals Examples.Y_train_A Examples.S2 Examples.tags2 ["total"; "regionA"] ;;
   st1 <- iteration Examples.Y_hat_AB Examples.Y_train_A None true ["total"; "regionA"] []
            bootstrap_method (_build_fn_name bootstrap_method) false true
            (cv0, Examples.Y_hat_AB) "A" ;;
   staged <- stage Examples.Y_hat_AB Examples.Y_train_A None true ["total"; "regionA"] []
               false true "B" (fst st1) ;;
   Ok (fst staged, build_kwargs bootstrap_method (snd staged))) =
  Ok (Examples.sevens_matrix,
      [("level", VNone);
       ("bootstrap_samples",
        bootstrap_samples (VMatrix (astype_float32 Examples.tens_matrix))
                          (astype_float32 Examples.nines_matrix) Examples.tens_matrix 1000);
       ("bootstrap", VBool true)])
  /\ (cv0 <- build_common_vals Examples.Y_train_A Examples.S2 Examples.tags2 ["total"; "regionA"] ;;
      st <- per_reconciler Examples.Y_hat_AB Examples.Y_train_A None true ["total"; "regionA"] []
              ["A"; "B"] (cv0, Examples.Y_hat_AB) bootstrap_method ;;
      Ok (List.filter (fun k => negb (bool_decide (k ∈ dom cv0)))
                      (map fst (map_to_list (fst st))))) =
     Ok ["y_hat_insample"; "bootstrap_samples"; "bootstrap"; "level"]
  /\ is_ok (reconcile [bootstrap_method] Examples.Y_hat_AB Examples.Y_train_A Examples.S2
                      Examples.tags2 None true) = true.
Proof. repeat split; vm_compute; reflexivity. Qed.

(** [del] removes what was inserted last into a dictionary that did not
    have the key. *)
Lemma del_insert (key : string) (v : val) (d : gmap string val) :
  d !! key = None -> del key (<[key := v]> d) = Ok d.
Proof.
  intros H. unfold del. rewrite lookup_insert_eq. f_equal.
  now apply delete_insert_id.
Qed.

Lemma insert_swap (k1 k2 : string) (v1 v2 : val) (d : gmap string val) :
  k1 <> k2 -> <[k1 := v1]> (<[k2 := v2]> d) = <[k2 := v2]> (<[k1 := v1]> d).
Proof. intros H. now apply insert_insert_ne. Qed.

(** With bootstrap off the [del] statements mirror the staging: they
    raise nothing and give back the dictionary the iteration started
    with. *)
Lemma purge_mirrors_stage (Y_hat_df Y_df : DataFrame) (level : option (list Z))
    (uids pi_model_names : list string) (has_fitted has_level : bool)
    (common_vals staged : gmap string val) (y_hat_model : matrix) (model_name : string) :
  common_vals !! "sigmah" = None ->
  common_vals !! "level" = None ->
  common_vals !! "y_hat_insample" = None ->
  stage Y_hat_df Y_df level false uids pi_model_names has_fitted has_level model_name
        common_vals = Ok (y_hat_model, staged) ->
  purge level false pi_model_names has_fitted has_level model_name staged = Ok common_vals.
Proof.
  intros Hs Hl Hf H. unfold stage in H.
  invert_bind H as y Hy. invert_bind H as cv1 H1. invert_bind H as cv2 H2.
  injection H as -> ->. clear Hy.
  unfold stage_sigmah, stage_fitted, purge in *.
  rewrite !andb_true_r, ?orb_false_r in *. simpl negb. cbv iota.
  destruct (pi_of pi_model_names model_name && has_level && is_not_None level).
  - invert_bind H1 as pi_col Hc. invert_bind H1 as level_col Hlc. invert_bind H1 as bound Hb.
    injection H1 as <-. clear Hc Hlc Hb.
    destruct has_fitted; simpl in H2 |- *.
    + assert (exists v, staged = <["y_hat_insample" := v]>
                (<["level" := level_val level]>
                   (<["sigmah" := VMatrix (interval_to_scale (sign_of pi_col) level_col
                                             y_hat_model bound)]>
                      common_vals))) as [v ->].
      { destruct (in_columns model_name Y_df).
        - invert_bind H2 as fitted Hfit. injection H2 as <-. eauto.
        - injection H2 as <-. eauto. }
      rewrite (insert_swap "y_hat_insample" "level") by discriminate.
      rewrite del_insert by (rewrite !lookup_insert_ne by discriminate; exact Hl).
      simpl. rewrite (insert_swap "y_hat_insample" "sigmah") by discriminate.
      rewrite del_insert by (rewrite !lookup_insert_ne by discriminate; exact Hs).
      simpl. now apply del_insert.
    + injection H2 as <-.
      rewrite del_insert by (rewrite !lookup_insert_ne by discriminate; exact Hl).
      simpl. rewrite del_insert by exact Hs. reflexivity.
  - injection H1 as <-. destruct has_fitted; simpl in H2 |- *.
    + assert (exists v, staged = <["y_hat_insample" := v]> common_vals) as [v ->].
      { destruct (in_columns model_name Y_df).
        - invert_bind H2 as fitted Hfit. injection H2 as <-. eauto.
        - injection H2 as <-. eauto. }
      now apply del_insert.
    + now injection H2 as <-.
Qed.

(** So an iteration that completes with bootstrap off leaves the
    dictionary as it found it. *)
Lemma iteration_restores_context (Y_hat_df Y_df : DataFrame) (level : option (list Z))
    (uids pi_model_names : list string) (fn : Reconciler) (fn_name : string)
    (has_fitted has_level : bool) (common_vals common_vals' : gmap string val)
    (fcsts fcsts' : DataFrame) (model_name : string) :
  common_vals !! "sigmah" = None ->
  common_vals !! "level" = None ->
  common_vals !! "y_hat_insample" = None ->
  iteration Y_hat_df Y_df level false uids pi_model_names fn fn_name has_fitted has_level
            (common_vals, fcsts) model_name = Ok (common_vals', fcsts') ->
  common_vals' = common_vals.
Proof.
  intros Hs Hl Hf H. unfold iteration in H.
  invert_bind H as st Hst. invert_bind H as fcsts_model Hcall. invert_bind H as written Hw.
  invert_bind H as purged Hp. injection H as <- _.
  destruct st as [y_hat_model staged]. simpl in *.
  rewrite (purge_mirrors_stage _ _ _ _ _ _ _ _ _ _ _ Hs Hl Hf Hst) in Hp. congruence.
Qed.

(** ** Fitted values that the training table does not have *)

(** Lines 135 to 139: a method that names [y_hat_insample], for a model
    without a column in the training table, gets an explicit [None]. *)
Lemma null_residuals_staged (Y_hat_df Y_df : DataFrame) (level : option (list Z))
    (bootstrap : bool) (uids pi_model_names : list string) (fn : Reconciler)
    (has_level : bool) (model_name : string) (common_vals staged : gmap string val)
    (y_hat_model : matrix) :
  "y_hat_insample" ∈ parameters fn ->
  in_columns model_name Y_df = false ->
  stage Y_hat_df Y_df level bootstrap uids pi_model_names true has_level model_name
        common_vals = Ok (y_hat_model, staged) ->
  staged !! "y_hat_insample" = Some VNone
  /\ ("y_hat_insample", VNone) ∈ build_kwargs fn staged.
Proof.
  intros Hsig Hcol H. unfold stage in H. bind_ok H. bind_ok H. bind_ok H.
  injection H as <- <-. unfold stage_fitted in Hx1. simpl in Hx1. rewrite Hcol in Hx1.
  injection Hx1 as <-. rewrite lookup_insert_eq. split; [reflexivity|].
  unfold build_kwargs. apply list_elem_of_omap. exists "y_hat_insample".
  split; [exact Hsig|]. now rewrite lookup_insert_eq.
Qed.

(** C9, at the failing input: bootstrap mode with a level list, a method
    whose signature names [y_hat_insample], and a model without a column
    in the training table.  The null marker is staged and passed; then
    line 144 takes the branch of the interval columns, although no level
    list was staged for this iteration: a method that returns no bounds
    makes line 146 raise, and with a method that returns them line 148
    raises on [del common_vals['level']].  With bootstrap off the same
    call completes. *)
Theorem null_residuals_in_bootstrap_mode :
  (cv0 <- build_common_vals Examples.Y_train Examples.S2 Examples.tags2 ["total"; "regionA"] ;;
   staged <- stage Examples.Y_hat_naive Examples.Y_train (Some [80]) true ["total"; "regionA"] []
               true false "naive" cv0 ;;
   Ok (build_kwargs (Examples.with_bounds ["y_hat"; "y_hat_insample"]) (snd staged))) =
  Ok [("y_hat_insample", VNone)]
  /\ reconcile [Examples.with_bounds ["y_hat"; "y_hat_insample"]] Examples.Y_hat_naive
       Examples.Y_train Examples.S2 Examples.tags2 (Some [80]) true =
     Err (KeyError ["level"])
  /\ reconcile [Examples.passthrough ["y_hat"; "y_hat_insample"; "level"]] Examples.Y_hat_naive
       Examples.Y_train Examples.S2 Examples.tags2 (Some [80]) true =
     Err (KeyError ["lo-80"])
  /\ is_ok (reconcile [Examples.passthrough ["y_hat"; "y_hat_insample"; "level"]]
              Examples.Y_hat_naive Examples.Y_train Examples.S2 Examples.tags2
              (Some [80]) false) = true.
Proof. repeat split; vm_compute; reflexivity. Qed.

(** ** Ragged horizons *)

Lemma insert_sorted_perm {A : Type} (leb : A -> A -> bool) (x : A) (l : list A) :
  insert_sorted leb x l ≡ₚ x :: l.
Proof.
  induction l as [|y l IH]; simpl; [reflexivity|].
  destruct (leb x y); [reflexivity|]. rewrite IH. apply Permutation_swap.
Qed.

Lemma sort_perm {A : Type} (leb : A -> A -> bool) (l : list A) : sort leb l ≡ₚ l.
Proof.
  induction l as [|x l IH]; simpl; [reflexivity|].
  unfold sort in *. simpl. now rewrite insert_sorted_perm, IH.
Qed.

Lemma NoDup_unique_from {A : Type} `{EqDecision A} (seen l : list A) :
  NoDup (unique_from seen l).
Proof.
  revert seen. induction l as [|x l IH]; intros seen; simpl; [constructor|].
  destruct (bool_decide (x ∈ seen)); [apply IH|].
  constructor; [|apply IH]. rewrite elem_of_unique_from. intros [_ H]. apply H. now left.
Qed.

(** The row [.loc] finds for a label of an index without repetition. *)
Lemma loc_row {B : Type} (f : string -> B) (rows : list string) (u : string) :
  NoDup rows -> u ∈ rows ->
  map snd (List.filter (fun r => bool_decide (fst r = u)) (zip rows (map f rows))) = [f u].
Proof.
  induction 1 as [|r rows Hr Hnd IH]; intros Hu; [inversion Hu|]. simpl.
  destruct (bool_decide_reflect (r = u)) as [->|Hne]; simpl.
  - f_equal. clear IH Hnd Hu. induction rows as [|r rows IH]; [reflexivity|]. simpl.
    destruct (bool_decide_reflect (r = u)) as [->|Hne]; simpl.
    + exfalso. apply Hr. now left.
    + apply IH. intros H. apply Hr. now right.
  - apply IH. apply elem_of_cons in Hu as [->|Hu]; [contradiction | exact Hu].
Qed.

Lemma filter_none {A : Type} (p : A -> bool) (l : list A) :
  (forall x, x ∈ l -> p x = false) -> List.filter p l = [].
Proof.
  induction l as [|x l IH]; intros H; [reflexivity|]. simpl.
  rewrite H by now left. apply IH. intros y Hy. apply H. now right.
Qed.

Lemma flat_map_singleton {A B : Type} (g : A -> list B) (f : A -> B) (l : list A) :
  (forall x, x ∈ l -> g x = [f x]) -> flat_map g l = map f l.
Proof.
  induction l as [|x l IH]; intros H; [reflexivity|]. simpl.
  rewrite H by now left. simpl. f_equal. apply IH. intros y Hy. apply H. now right.
Qed.

(** C6, amended: the dispatcher does not compare the timestamps of the
    series.  For every table without a repeated (series, timestamp) row,
    ragged or not, the pivot of a column succeeds: the matrix has one row
    per series and one column per timestamp of the whole table, and the
    cell of a pair that the table does not have is NaN. *)
Theorem pivot_fills_missing (df : DataFrame) (name : string) (vals : list num) :
  get_column df name = Ok vals ->
  NoDup (zip (index df) (ds df)) ->
  pivot_loc_values df name (unique (index df)) =
    Ok (map (fun u => map (fun t => pivot_cell (long_rows df vals) u t)
                          (sorted_unique_ds (ds df)))
            (unique (index df)))
  /\ forall u t, (u, t) ∉ zip (index df) (ds df) ->
       pivot_cell (long_rows df vals) u t = NaN.
Proof.
  intros Hcol Hnd. split.
  - unfold pivot_loc_values, pivot. rewrite Hcol. simpl.
    unfold has_duplicates. rewrite bool_decide_eq_true_2 by exact Hnd. simpl.
    unfold wide_loc_values. simpl.
    assert (Hperm : sorted_unique_labels (index df) ≡ₚ unique (index df))
      by apply sort_perm.
    rewrite filter_none.
    + f_equal. apply flat_map_singleton. intros u Hu.
      apply (loc_row (fun u => map (fun t => pivot_cell (long_rows df vals) u t)
                                   (sorted_unique_ds (ds df)))).
      * rewrite Hperm. apply NoDup_unique_from.
      * now rewrite Hperm.
    + intros u Hu. apply negb_false_iff, bool_decide_eq_true. now rewrite Hperm.
  - intros u t Hout. unfold pivot_cell.
    destruct (list_find _ (long_rows df vals)) as [[i r]|] eqn:E; [|reflexivity].
    apply list_find_Some in E as (Hi & Hr & _). exfalso. apply Hout.
    apply list_elem_of_lookup_2 in Hi. destruct r as [k v]. simpl in Hr. subst k.
    unfold long_rows in Hi. now apply elem_of_zip_l in Hi.
Qed.

Lemma pivot_fills_missing_witness :
  pivot_loc_values Examples.Y_hat_ragged "naive" (unique (index Examples.Y_hat_ragged)) =
    Ok (map (fun u => map (fun t => pivot_cell (long_rows Examples.Y_hat_ragged Examples.fives) u t)
                          (sorted_unique_ds (ds Examples.Y_hat_ragged)))
            (unique (index Examples.Y_hat_ragged)))
  /\ forall u t, (u, t) ∉ zip (index Examples.Y_hat_ragged) (ds Examples.Y_hat_ragged) ->
       pivot_cell (long_rows Examples.Y_hat_ragged Examples.fives) u t = NaN.
Proof.
  apply (pivot_fills_missing Examples.Y_hat_ragged "naive" Examples.fives).
  - reflexivity.
  - apply (bool_decide_unpack _). vm_compute. exact I.
Defined.

(** C6, counterexample: [total] has three timestamps and [regionA] two.
    The forecast matrix is built, with NaN for the third timestamp of
    [regionA], and the method is called with it.  The call of [reconcile]
    fails afterwards, when the six cells the method returns are assigned
    to a table of five rows. *)
Lemma ragged_horizon_not_detected :
  (cv0 <- build_common_vals Examples.Y_train Examples.S2 Examples.tags2 ["total"; "regionA"] ;;
   staged <- stage Examples.Y_hat_ragged Examples.Y_train None false ["total"; "regionA"] []
               false false "naive" cv0 ;;
   Ok (fst staged)) =
  Ok [[Examples.c 10; Examples.c 10; Examples.c 10]; [Examples.c 10; Examples.c 10; NaN]]
  /\ reconcile [Examples.passthrough ["y_hat"]] Examples.Y_hat_ragged Examples.Y_train
       Examples.S2 Examples.tags2 None false =
     Err (ValueError "Length of values does not match length of index").
Proof. split; vm_compute; reflexivity. Qed.

(** * Further properties of the dispatcher *)

(** ** Which columns are models *)

Lemma elem_of_filter_bool {A : Type} (p : A -> bool) (l : list A) (x : A) :
  x ∈ List.filter p l <-> x ∈ l /\ p x = true.
Proof. rewrite !list_elem_of_In. apply filter_In. Qed.

Lemma elem_of_all_model_names (Y_hat_df : DataFrame) (name : string) :
  name ∈ all_model_names Y_hat_df <->
  name ∈ column_names Y_hat_df /\ name <> "ds" /\ name <> "y".
Proof.
  unfold all_model_names. rewrite elem_of_filter_bool, negb_true_iff, bool_decide_eq_false.
  unfold drop_cols, in_columns. simpl.
  destruct (bool_decide_reflect ("y" ∈ column_names Y_hat_df)) as [Hy|Hy].
  - rewrite !elem_of_cons, elem_of_nil. tauto.
  - rewrite !elem_of_cons, elem_of_nil. split.
    + intros [Hin Hd]. repeat split; auto. intros ->. contradiction.
    + tauto.
Qed.

(** X1 (lines 80 to 85): the columns of the base-forecast table other than
    [ds] and [y] are split by the interval markers.  A column is reconciled
    as a model exactly when its name has neither [-lo] nor [-hi]; any
    column whose name has one of them is taken for an interval column and
    is never reconciled, whatever it holds. *)
Theorem model_columns_split (Y_hat_df : DataFrame) (name : string) :
  (name ∈ model_names_of Y_hat_df <->
   name ∈ column_names Y_hat_df /\ name <> "ds" /\ name <> "y"
   /\ interval_marked name = false)
  /\ (name ∈ pi_model_names_of Y_hat_df <->
      name ∈ column_names Y_hat_df /\ interval_marked name = true).
Proof.
  assert (Hpi : name ∈ pi_model_names_of Y_hat_df <->
                name ∈ column_names Y_hat_df /\ interval_marked name = true).
  { unfold pi_model_names_of. rewrite elem_of_filter_bool, elem_of_all_model_names.
    fold (interval_marked name). split; [tauto|]. intros [Hin Hm].
    repeat split; auto; intros ->; discriminate. }
  split; [|exact Hpi].
  unfold model_names_of.
  rewrite elem_of_filter_bool, negb_true_iff, bool_decide_eq_false, Hpi,
    elem_of_all_model_names.
  destruct (interval_marked name); intuition congruence.
Qed.

(** ** The rows of the aggregation matrix *)

Lemma filter_label_none {B : Type} (idx : list string) (vals : list B) (u : string) :
  u ∉ idx -> List.filter (fun r => bool_decide (fst r = u)) (zip idx vals) = [].
Proof.
  revert vals. induction idx as [|l idx IH]; intros [|v vals] Hu; simpl; try reflexivity.
  rewrite bool_decide_eq_false_2 by (intros ->; apply Hu; now left).
  apply IH. intros H. apply Hu. now right.
Qed.

(** [.loc] finds one row for a label of an index without repetition: the
    row at the label's position. *)
Lemma filter_label_at {B : Type} (idx : list string) (vals : list B) (u : string)
    (j : nat) (r : B) :
  NoDup idx -> idx !! j = Some u -> vals !! j = Some r ->
  List.filter (fun r => bool_decide (fst r = u)) (zip idx vals) = [(u, r)].
Proof.
  intros Hnd. revert vals j. induction Hnd as [|l idx Hl Hnd IH]; intros vals j Hj Hr.
  - destruct j; discriminate.
  - destruct vals as [|v vals]; [destruct j; discriminate|]. simpl.
    destruct j as [|j]; simpl in Hj, Hr.
    + injection Hj as ->. injection Hr as ->.
      rewrite bool_decide_eq_true_2 by reflexivity. f_equal.
      now apply filter_label_none.
    + rewrite bool_decide_eq_false_2.
      * eapply IH; eauto.
      * intros ->. apply Hl. eapply list_elem_of_lookup_2. exact Hj.
Qed.

(** X2 (lines 86 to 88): when the row index of [S] has no repeated label,
    carries one row of values per label and has every series of the
    forecasts, [S.loc[uids]] succeeds; its rows are labelled by [uids] in
    that order, and the row of each series is the row [S] has for it. *)
Theorem s_loc_rows_follow_uids (S : SFrame) (uids : list string) :
  NoDup (s_index S) ->
  length (s_values S) = length (s_index S) ->
  (forall u, u ∈ uids -> u ∈ s_index S) ->
  exists S_ : SFrame,
    s_loc S uids = Ok S_
    /\ s_index S_ = uids
    /\ s_columns S_ = s_columns S
    /\ length (s_values S_) = length uids
    /\ forall i u, uids !! i = Some u ->
         exists j, s_index S !! j = Some u /\ s_values S_ !! i = s_values S !! j.
Proof.
  intros Hnd Hlen Hall. unfold s_loc.
  rewrite filter_none
    by (intros u Hu; apply negb_false_iff, bool_decide_eq_true; auto).
  eexists. split; [reflexivity|]. simpl.
  assert (Hrow : forall u, u ∈ uids -> exists j r,
             s_index S !! j = Some u /\ s_values S !! j = Some r
             /\ List.filter (fun r => bool_decide (fst r = u))
                            (zip (s_index S) (s_values S)) = [(u, r)]).
  { intros u Hu. apply Hall in Hu. apply list_elem_of_lookup_1 in Hu as [j Hj].
    destruct (s_values S !! j) as [r|] eqn:Hr.
    - exists j, r. eauto using filter_label_at.
    - apply lookup_ge_None in Hr. apply lookup_lt_Some in Hj. lia. }
  clear Hall. induction uids as [|u uids IH]; simpl.
  - repeat split; auto. intros i u H. destruct i; discriminate.
  - destruct (Hrow u) as (j & r & Hj & Hr & ->); [now left|]. simpl.
    destruct IH as (Hi & Hc & Hl & Hv); [intros; apply Hrow; now right|].
    repeat split; [now rewrite Hi | now rewrite Hl |].
    intros [|i] u' Hu'; simpl in Hu' |- *.
    + injection Hu' as <-. exists j. now rewrite Hr.
    + now apply Hv.
Qed.

Lemma s_loc_rows_follow_uids_witness :
  exists S_ : SFrame,
    s_loc Examples.S2 ["regionA"; "total"] = Ok S_
    /\ s_index S_ = ["regionA"; "total"]
    /\ s_columns S_ = s_columns Examples.S2
    /\ length (s_values S_) = length ["regionA"; "total"]
    /\ forall i u, ["regionA"; "total"] !! i = Some u ->
         exists j, s_index Examples.S2 !! j = Some u
                   /\ s_values S_ !! i = s_values Examples.S2 !! j.
Proof.
  apply (s_loc_rows_follow_uids Examples.S2 ["regionA"; "total"]).
  - apply (bool_decide_unpack _). vm_compute. exact I.
  - reflexivity.
  - intros u Hu. apply (bool_decide_unpack _).
    apply elem_of_cons in Hu as [->|Hu]; [vm_compute; exact I|].
    apply elem_of_cons in Hu as [->|Hu]; [vm_compute; exact I|]. inversion Hu.
Defined.

(** ** The shared context *)

Lemma reconcile_run_loops (reconcilers : list Reconciler) (Y_hat_df Y_df : DataFrame)
    (S : SFrame) (tags : list (string * list string)) (level : option (list Z))
    (bootstrap : bool) :
  reconcile reconcilers Y_hat_df Y_df S tags level bootstrap =
  (common_vals <- build_common_vals Y_df S tags (unique (index Y_hat_df)) ;;
   st <- run_loops Y_hat_df Y_df level bootstrap (unique (index Y_hat_df))
           (pi_model_names_of Y_hat_df) (model_names_of Y_hat_df)
           (common_vals, Y_hat_df) reconcilers ;;
   Ok (snd st)).
Proof. reflexivity. Qed.

Lemma stage_sigmah_other (Y_hat_df : DataFrame) (level : option (list Z)) (bootstrap : bool)
    (uids pi_model_names : list string) (has_level : bool) (model_name : string)
    (y_hat_model : matrix) (common_vals staged : gmap string val) (k : string) :
  k ∉ staged_keys ->
  stage_sigmah Y_hat_df level bootstrap uids pi_model_names has_level model_name
               y_hat_model common_vals = Ok staged ->
  staged !! k = common_vals !! k.
Proof.
  intros Hk H. unfold stage_sigmah in H.
  destruct (_ && _ && _ && _); [|congruence].
  invert_bind H as pi_col Hc. invert_bind H as level_col Hl. invert_bind H as bound Hb.
  injection H as <-.
  rewrite !lookup_insert_ne; [reflexivity | |]; intros <-; apply Hk; set_solver.
Qed.

Lemma stage_fitted_other (Y_df : DataFrame) (level : option (list Z)) (bootstrap : bool)
    (uids : list string) (has_fitted has_level : bool) (model_name : string)
    (y_hat_model : matrix) (common_vals staged : gmap string val) (k : string) :
  k ∉ staged_keys ->
  stage_fitted Y_df level bootstrap uids has_fitted has_level model_name y_hat_model
               common_vals = Ok staged ->
  staged !! k = common_vals !! k.
Proof.
  intros Hk H. unfold stage_fitted in H.
  assert (Hne : forall k', k' ∈ staged_keys -> k' <> k) by (intros k' Hk' ->; contradiction).
  assert (H1 : "y_hat_insample" <> k) by (apply Hne; set_solver).
  assert (H2 : "level" <> k) by (apply Hne; set_solver).
  assert (H3 : "bootstrap" <> k) by (apply Hne; set_solver).
  assert (H4 : "bootstrap_samples" <> k) by (apply Hne; set_solver).
  destruct (has_fitted || bootstrap); [|congruence].
  destruct (in_columns model_name Y_df).
  - invert_bind H as fitted Hfit. destruct (bootstrap && has_level).
    + invert_bind H as y_insample Hy. injection H as <-.
      rewrite !lookup_insert_ne by assumption.
      destruct has_fitted; [now rewrite lookup_insert_ne by assumption | reflexivity].
    + injection H as <-.
      destruct has_fitted; [now rewrite lookup_insert_ne by assumption | reflexivity].
  - injection H as <-. now rewrite lookup_insert_ne by assumption.
Qed.

Lemma del_other (key k : string) (d d' : gmap string val) :
  key <> k -> del key d = Ok d' -> d' !! k = d !! k.
Proof. intros Hne H. apply del_Ok in H as ->. now apply lookup_delete_ne. Qed.

Lemma purge_other (level : option (list Z)) (bootstrap : bool)
    (pi_model_names : list string) (has_fitted has_level : bool) (model_name : string)
    (staged purged : gmap string val) (k : string) :
  k ∉ staged_keys ->
  purge level bootstrap pi_model_names has_fitted has_level model_name staged = Ok purged ->
  purged !! k = staged !! k.
Proof.
  intros Hk H. unfold purge in H.
  assert (Hne : forall k', k' ∈ staged_keys -> k' <> k) by (intros k' Hk' ->; contradiction).
  assert (H1 : "y_hat_insample" <> k) by (apply Hne; set_solver).
  assert (H2 : "level" <> k) by (apply Hne; set_solver).
  assert (H3 : "bootstrap" <> k) by (apply Hne; set_solver).
  assert (H4 : "bootstrap_samples" <> k) by (apply Hne; set_solver).
  assert (H5 : "sigmah" <> k) by (apply Hne; set_solver).
  invert_bind H as c Hc.
  assert (Hcs : c !! k = staged !! k).
  { destruct (_ || _); [|congruence].
    invert_bind Hc as c1 Hc1. apply (del_other _ k) in Hc1; [|assumption].
    destruct (negb bootstrap).
    - apply (del_other _ k) in Hc; congruence.
    - invert_bind Hc as c2 Hc2. apply (del_other _ k) in Hc2, Hc; congruence. }
  destruct has_fitted; [apply (del_other _ k) in H|]; congruence.
Qed.

Lemma iteration_other (Y_hat_df Y_df : DataFrame) (level : option (list Z))
    (bootstrap : bool) (uids pi_model_names : list string) (fn : Reconciler)
    (fn_name : string) (has_fitted has_level : bool)
    (st st' : gmap string val * DataFrame) (model_name k : string) :
  k ∉ staged_keys ->
  iteration Y_hat_df Y_df level bootstrap uids pi_model_names fn fn_name has_fitted
            has_level st model_name = Ok st' ->
  fst st' !! k = fst st !! k.
Proof.
  intros Hk H. unfold iteration in H.
  invert_bind H as staged Hst. invert_bind H as fcsts_model Hcall.
  invert_bind H as written Hw. invert_bind H as purged Hp. injection H as <-. simpl.
  unfold stage in Hst. invert_bind Hst as y Hy. invert_bind Hst as cv1 H1.
  invert_bind Hst as cv2 H2. injection Hst as <-. simpl in Hp.
  rewrite (purge_other _ _ _ _ _ _ _ _ _ Hk Hp).
  rewrite (stage_fitted_other _ _ _ _ _ _ _ _ _ _ _ Hk H2).
  now rewrite (stage_sigmah_other _ _ _ _ _ _ _ _ _ _ _ Hk H1).
Qed.

(** X3 (lines 96 to 155): the loops only touch the five staged keys of the
    dictionary.  Whatever [reconcile] put under another key ([y_insample],
    [S], [idx_bottom], [tags]) is what every iteration stages for its
    method, and is still there, unchanged, when the loops end. *)
Theorem shared_context_untouched (Y_hat_df Y_df : DataFrame) (level : option (list Z))
    (bootstrap : bool) (uids pi_model_names model_names : list string)
    (reconcilers : list Reconciler) (st st' : gmap string val * DataFrame) (k : string) :
  k ∉ staged_keys ->
  (forall has_fitted has_level model_name y_hat_model staged,
     stage Y_hat_df Y_df level bootstrap uids pi_model_names has_fitted has_level
           model_name (fst st) = Ok (y_hat_model, staged) ->
     staged !! k = fst st !! k)
  /\ (run_loops Y_hat_df Y_df level bootstrap uids pi_model_names model_names st reconcilers
        = Ok st' ->
      fst st' !! k = fst st !! k).
Proof.
  intros Hk. split.
  - intros has_fitted has_level model_name y_hat_model staged H. unfold stage in H.
    invert_bind H as y Hy. invert_bind H as cv1 H1. invert_bind H as cv2 H2.
    injection H as _ <-.
    rewrite (stage_fitted_other _ _ _ _ _ _ _ _ _ _ _ Hk H2).
    now rewrite (stage_sigmah_other _ _ _ _ _ _ _ _ _ _ _ Hk H1).
  - unfold run_loops.
    apply (foldM_invariant (fun s s' => fst s' !! k = fst s !! k));
      [reflexivity | intros a b c Hab Hbc; congruence |].
    intros a fn a'. unfold per_reconciler.
    apply (foldM_invariant (fun s s' => fst s' !! k = fst s !! k));
      [reflexivity | intros x y z Hxy Hyz; congruence |].
    intros x m x'. now apply iteration_other.
Qed.

Lemma shared_context_untouched_witness :
  (forall has_fitted has_level model_name y_hat_model staged,
     stage Examples.Y_hat_naive Examples.Y_train None false ["total"; "regionA"] []
           has_fitted has_level model_name
           (fst (Examples.only_S, Examples.Y_hat_naive)) = Ok (y_hat_model, staged) ->
     staged !! "S" = fst (Examples.only_S, Examples.Y_hat_naive) !! "S")
  /\ (run_loops Examples.Y_hat_naive Examples.Y_train None false ["total"; "regionA"] []
        ["naive"] (Examples.only_S, Examples.Y_hat_naive)
        [Examples.passthrough ["y_hat"]]
        = Ok (Examples.only_S, Examples.fcsts_naive) ->
      fst (Examples.only_S, Examples.fcsts_naive) !! "S" =
      fst (Examples.only_S, Examples.Y_hat_naive) !! "S").
Proof.
  apply (shared_context_untouched Examples.Y_hat_naive Examples.Y_train None false
           ["total"; "regionA"] [] ["naive"] [Examples.passthrough ["y_hat"]]
           (Examples.only_S, Examples.Y_hat_naive)
           (Examples.only_S, Examples.fcsts_naive) "S").
  apply (bool_decide_unpack _). vm_compute. exact I.
Defined.

(** ** Iterations that clean up after themselves *)

(** X4 (lines 100 to 155): with bootstrap off, an iteration that starts
    without [sigmah], [level] and [y_hat_insample] in the dictionary is its
    staging, the call of the method and the writing of the columns; the
    [del] statements raise nothing and hand the dictionary back as the
    iteration found it. *)
Theorem iteration_without_bootstrap (Y_hat_df Y_df : DataFrame) (level : option (list Z))
    (uids pi_model_names : list string) (fn : Reconciler) (fn_name : string)
    (has_fitted has_level : bool) (common_vals : gmap string val) (fcsts : DataFrame)
    (model_name : string) :
  common_vals !! "sigmah" = None ->
  common_vals !! "level" = None ->
  common_vals !! "y_hat_insample" = None ->
  iteration Y_hat_df Y_df level false uids pi_model_names fn fn_name has_fitted has_level
            (common_vals, fcsts) model_name =
  (staged <- stage Y_hat_df Y_df level false uids pi_model_names has_fitted has_level
                   model_name common_vals ;;
   fcsts_model <- call fn (fst staged) (build_kwargs fn (snd staged)) ;;
   fcsts <- write level false pi_model_names has_level model_name fn_name fcsts_model fcsts ;;
   Ok (common_vals, fcsts)).
Proof.
  intros Hs Hl Hf. unfold iteration. simpl.
  destruct (stage _ _ _ _ _ _ _ _ _ _) as [[y_hat_model staged]|e] eqn:Hst; [|reflexivity].
  simpl. destruct (call fn y_hat_model _) as [fcsts_model|e]; [|reflexivity]. simpl.
  destruct (write _ _ _ _ _ _ _ _) as [written|e]; [|reflexivity]. simpl.
  now rewrite (purge_mirrors_stage _ _ _ _ _ _ _ _ _ _ _ Hs Hl Hf Hst).
Qed.

Lemma iteration_without_bootstrap_witness :
  iteration Examples.Y_hat_pi Examples.Y_train (Some [80]) false ["total"; "regionA"]
            ["naive-lo-80"] (Examples.passthrough ["y_hat"; "level"; "y_hat_insample"])
            "Passthrough" true true (∅, Examples.Y_hat_pi) "naive" =
  (staged <- stage Examples.Y_hat_pi Examples.Y_train (Some [80]) false ["total"; "regionA"]
                   ["naive-lo-80"] true true "naive" ∅ ;;
   fcsts_model <- call (Examples.passthrough ["y_hat"; "level"; "y_hat_insample"])
                       (fst staged)
                       (build_kwargs (Examples.passthrough ["y_hat"; "level"; "y_hat_insample"])
                                     (snd staged)) ;;
   fcsts <- write (Some [80]) false ["naive-lo-80"] true "naive" "Passthrough" fcsts_model
                  Examples.Y_hat_pi ;;
   Ok (∅, fcsts)).
Proof.
  apply (iteration_without_bootstrap Examples.Y_hat_pi Examples.Y_train (Some [80])
           ["total"; "regionA"] ["naive-lo-80"]
           (Examples.passthrough ["y_hat"; "level"; "y_hat_insample"]) "Passthrough"
           true true ∅ Examples.Y_hat_pi "naive"); reflexivity.
Defined.

Lemma purge_mirrors_stage_bootstrap (Y_hat_df Y_df : DataFrame) (levels : list Z)
    (uids pi_model_names : list string) (has_fitted : bool)
    (common_vals staged : gmap string val) (y_hat_model : matrix) (model_name : string) :
  in_columns model_name Y_df = true ->
  common_vals !! "level" = None ->
  common_vals !! "bootstrap_samples" = None ->
  common_vals !! "bootstrap" = None ->
  common_vals !! "y_hat_insample" = None ->
  stage Y_hat_df Y_df (Some levels) true uids pi_model_names has_fitted true model_name
        common_vals = Ok (y_hat_model, staged) ->
  purge (Some levels) true pi_model_names has_fitted true model_name staged = Ok common_vals.
Proof.
  intros Hcol Hl Hbs Hb Hf H. unfold stage in H.
  invert_bind H as y Hy. invert_bind H as cv1 H1. invert_bind H as cv2 H2.
  injection H as -> ->. clear Hy.
  unfold stage_sigmah in H1. rewrite andb_false_r in H1. injection H1 as <-.
  unfold stage_fitted in H2. rewrite orb_true_r, Hcol in H2. simpl in H2.
  invert_bind H2 as fitted Hfit. invert_bind H2 as y_insample Hy. injection H2 as <-.
  unfold purge. simpl. rewrite orb_true_r.
  set (X := if has_fitted then <["y_hat_insample" := VMatrix (astype_float32 fitted)]> common_vals
            else common_vals).
  assert (HXl : X !! "level" = None)
    by (subst X; destruct has_fitted; rewrite ?lookup_insert_ne by discriminate; assumption).
  assert (HXbs : X !! "bootstrap_samples" = None)
    by (subst X; destruct has_fitted; rewrite ?lookup_insert_ne by discriminate; assumption).
  assert (HXb : X !! "bootstrap" = None)
    by (subst X; destruct has_fitted; rewrite ?lookup_insert_ne by discriminate; assumption).
  rewrite del_insert by (rewrite !lookup_insert_ne by discriminate; exact HXl).
  simpl. rewrite (insert_swap "bootstrap" "bootstrap_samples") by discriminate.
  rewrite del_insert by (rewrite !lookup_insert_ne by discriminate; exact HXbs).
  simpl. rewrite del_insert by exact HXb. simpl.
  subst X. destruct has_fitted; [now apply del_insert | reflexivity].
Qed.

(** X5 (lines 100 to 155): in bootstrap mode with a level list, for a
    method whose signature names [level] and a model whose fitted values
    are in the training table, an iteration that starts without the staged
    keys is its staging, the call and the writing too: every staged field
    is deleted again and no [del] raises. *)
Theorem iteration_with_bootstrap (Y_hat_df Y_df : DataFrame) (levels : list Z)
    (uids pi_model_names : list string) (fn : Reconciler) (fn_name : string)
    (has_fitted : bool) (common_vals : gmap string val) (fcsts : DataFrame)
    (model_name : string) :
  in_columns model_name Y_df = true ->
  common_vals !! "level" = None ->
  common_vals !! "bootstrap_samples" = None ->
  common_vals !! "bootstrap" = None ->
  common_vals !! "y_hat_insample" = None ->
  iteration Y_hat_df Y_df (Some levels) true uids pi_model_names fn fn_name has_fitted true
            (common_vals, fcsts) model_name =
  (staged <- stage Y_hat_df Y_df (Some levels) true uids pi_model_names has_fitted true
                   model_name common_vals ;;
   fcsts_model <- call fn (fst staged) (build_kwargs fn (snd staged)) ;;
   fcsts <- write (Some levels) true pi_model_names true model_name fn_name fcsts_model
                  fcsts ;;
   Ok (common_vals, fcsts)).
Proof.
  intros Hcol Hl Hbs Hb Hf. unfold iteration. simpl.
  destruct (stage _ _ _ _ _ _ _ _ _ _) as [[y_hat_model staged]|e] eqn:Hst; [|reflexivity].
  simpl. destruct (call fn y_hat_model _) as [fcsts_model|e]; [|reflexivity]. simpl.
  destruct (write _ _ _ _ _ _ _ _) as [written|e]; [|reflexivity]. simpl.
  now rewrite (purge_mirrors_stage_bootstrap _ _ _ _ _ _ _ _ _ _ Hcol Hl Hbs Hb Hf Hst).
Qed.

Lemma iteration_with_bootstrap_witness :
  iteration Examples.Y_hat_AB Examples.Y_train_A (Some [80]) true ["total"; "regionA"] []
            (Examples.passthrough ["y_hat"; "level"; "bootstrap_samples"; "bootstrap"])
            "Passthrough" false true (Examples.ctx_A, Examples.Y_hat_AB) "A" =
  (staged <- stage Examples.Y_hat_AB Examples.Y_train_A (Some [80]) true
                   ["total"; "regionA"] [] false true "A" Examples.ctx_A ;;
   fcsts_model <- call (Examples.passthrough ["y_hat"; "level"; "bootstrap_samples"; "bootstrap"])
                       (fst staged)
                       (build_kwargs
                          (Examples.passthrough ["y_hat"; "level"; "bootstrap_samples"; "bootstrap"])
                          (snd staged)) ;;
   fcsts <- write (Some [80]) true [] true "A" "Passthrough" fcsts_model Examples.Y_hat_AB ;;
   Ok (Examples.ctx_A, fcsts)).
Proof.
  apply (iteration_with_bootstrap Examples.Y_hat_AB Examples.Y_train_A [80]
           ["total"; "regionA"] []
           (Examples.passthrough ["y_hat"; "level"; "bootstrap_samples"; "bootstrap"])
           "Passthrough" false Examples.ctx_A Examples.Y_hat_AB "A");
    vm_compute; reflexivity.
Defined.

(** ** Interval columns named by the convention *)

Lemma first_number_skip (p s : string) :
  all_chars plain_char p = true -> first_number (p ++ s) = first_number s.
Proof.
  induction p as [|c p IH]; intros H; [reflexivity|].
  simpl in H. apply andb_true_iff in H as [Hc Hp].
  unfold plain_char in Hc. apply andb_true_iff in Hc as [Hd Hdot].
  apply negb_true_iff in Hd, Hdot.
  rewrite append_cons. cbn [first_number]. rewrite Hd, Hdot. simpl. auto.
Qed.

Lemma take_while_digits (s : string) :
  all_chars is_digit s = true -> take_while is_num_char s = s.
Proof.
  induction s as [|c s IH]; intros H; [reflexivity|].
  simpl in H. apply andb_true_iff in H as [Hc Hs].
  cbn [take_while].
  replace (is_num_char c) with true by (unfold is_num_char; now rewrite Hc).
  now rewrite IH.
Qed.

Lemma first_number_digits (L : string) :
  L <> "" -> all_chars is_digit L = true -> first_number L = Ok L.
Proof.
  destruct L as [|c L]; [congruence|]. intros _ H.
  simpl in H. apply andb_true_iff in H as [Hc HL].
  cbn [first_number]. rewrite Hc. now rewrite take_while_digits.
Qed.

Lemma split_decimal_digits (s : string) (acc : list ascii) :
  all_chars is_digit s = true ->
  split_decimal s false acc [] = Some ((acc ++ list_ascii_of_string s)%list, []).
Proof.
  revert acc. induction s as [|c s IH]; intros acc H; simpl.
  - now rewrite app_nil_r.
  - simpl in H. apply andb_true_iff in H as [Hc Hs]. rewrite Hc.
    rewrite IH by exact Hs. now rewrite <- app_assoc.
Qed.

Lemma py_float_digits (L : string) :
  all_chars is_digit L = true -> py_float L = Ok (decimal_value L # 1).
Proof.
  intros H. unfold py_float. rewrite split_decimal_digits by exact H.
  simpl. now rewrite app_nil_r.
Qed.

Lemma prefix_cons (a b : ascii) (s t : string) :
  String.prefix (String a s) (String b t) =
  if ascii_dec a b then String.prefix s t else false.
Proof. reflexivity. Qed.

Lemma contains_lo_digits (L : string) :
  all_chars is_digit L = true -> contains "lo" L = false.
Proof.
  induction L as [|c L IH]; intros H; [reflexivity|].
  simpl in H. apply andb_true_iff in H as [Hc HL].
  cbn [contains]. rewrite IH by exact HL. rewrite orb_false_r, prefix_cons.
  destruct (ascii_dec "l" c) as [<-|]; [discriminate | reflexivity].
Qed.

Lemma contains_lo_app (m t : string) :
  contains "lo" m = false -> contains "lo" t = false -> String.prefix "o" t = false ->
  contains "lo" (m ++ t) = false.
Proof.
  intros Hm Ht Ho. induction m as [|c m IH]; [exact Ht|].
  rewrite append_cons. cbn [contains]. cbn [contains] in Hm.
  apply orb_false_iff in Hm as [Hp Hm]. rewrite (IH Hm), orb_false_r.
  destruct m as [|d m].
  - rewrite append_nil. destruct t as [|e t]; [exact Hp|].
    rewrite prefix_cons. destruct (ascii_dec "l" c); [exact Ho | reflexivity].
  - rewrite append_cons, prefix_cons. rewrite prefix_cons in Hp.
    destruct (ascii_dec "l" c); [|reflexivity].
    rewrite prefix_cons in Hp |- *.
    destruct (ascii_dec "o" d); [|reflexivity].
    destruct m; discriminate.
Qed.

(** X6 (lines 112 to 115): for a model whose name has no digit, no dot and
    no [lo], the interval columns named by the convention are read as they
    are meant: [model-lo-L] gives the sign -1, [model-hi-L] the sign +1,
    and both give the level the digits [L] write. *)
Theorem conventional_interval_column (m L : string) :
  all_chars plain_char m = true ->
  contains "lo" m = false ->
  L <> "" ->
  all_chars is_digit L = true ->
  sign_of (m ++ "-lo-" ++ L) = -1
  /\ sign_of (m ++ "-hi-" ++ L) = 1
  /\ level_of (m ++ "-lo-" ++ L) = Ok (decimal_value L # 1)
  /\ level_of (m ++ "-hi-" ++ L) = Ok (decimal_value L # 1).
Proof.
  intros Hplain Hlo Hne Hd.
  assert (Hlevel : forall marker, all_chars plain_char marker = true ->
            level_of (m ++ marker ++ L) = Ok (decimal_value L # 1)).
  { intros marker Hmk. unfold level_of.
    rewrite first_number_skip by exact Hplain.
    rewrite first_number_skip by exact Hmk.
    rewrite first_number_digits by assumption. simpl. now apply py_float_digits. }
  repeat split.
  - apply sign_of_lower. apply contains_spec. exists m, ("-" ++ L). reflexivity.
  - unfold sign_of. rewrite contains_lo_app; [reflexivity | exact Hlo | | reflexivity].
    change (contains "lo" ("-hi-" ++ L)) with (false || (false || (false || (false || contains "lo" L)))).
    simpl. now apply contains_lo_digits.
  - now apply Hlevel.
  - now apply Hlevel.
Qed.

Lemma conventional_interval_column_witness :
  sign_of ("AutoARIMA" ++ "-lo-" ++ "95") = -1
  /\ sign_of ("AutoARIMA" ++ "-hi-" ++ "95") = 1
  /\ level_of ("AutoARIMA" ++ "-lo-" ++ "95") = Ok (decimal_value "95" # 1)
  /\ level_of ("AutoARIMA" ++ "-hi-" ++ "95") = Ok (decimal_value "95" # 1).
Proof.
  apply (conventional_interval_column "AutoARIMA" "95").
  - reflexivity.
  - reflexivity.
  - discriminate.
  - reflexivity.
Defined.

(** ** The columns of the result *)

Lemma foldM_preserves {A B : Type} (I : A -> Prop) (f : A -> B -> result A) (l : list B) :
  (forall a b a', b ∈ l -> I a -> f a b = Ok a' -> I a') ->
  forall a a', I a -> foldM f a l = Ok a' -> I a'.
Proof.
  induction l as [|b l IH]; intros Hstep a a' Ha H; simpl in H.
  - now injection H as <-.
  - invert_bind H as a1 H1. apply (IH (fun a b' a' Hb => Hstep a b' a' (proj2 (elem_of_cons l b' b) (or_intror Hb))) a1);
      [|exact H].
    eapply Hstep; eauto. now left.
Qed.

Lemma foldM_establishes {A B : Type} (P : B -> A -> Prop) (f : A -> B -> result A) :
  (forall a b a', f a b = Ok a' -> P b a') ->
  (forall a b a' b', f a b = Ok a' -> P b' a -> P b' a') ->
  forall (l : list B) (a a' : A), foldM f a l = Ok a' -> forall b, b ∈ l -> P b a'.
Proof.
  intros Hest Hpres l. induction l as [|b l IH]; intros a a' H b0 Hb0; [inversion Hb0|].
  simpl in H. invert_bind H as a1 H1. apply elem_of_cons in Hb0 as [->|Hb0].
  - apply (foldM_preserves (P b) f l) with (a := a1); eauto.
  - eapply IH; eauto.
Qed.

Lemma name_assigned (cols : list (string * list num)) (name : string) (values : list num) :
  name ∈ map fst (assign_column cols name values).
Proof.
  induction cols as [|[n c] cols IH]; simpl; [now left|].
  destruct (bool_decide_reflect (n = name)) as [->|]; simpl; [now left | now right].
Qed.

Lemma names_after_assign (cols : list (string * list num)) (name n : string)
    (values : list num) :
  n ∈ map fst (assign_column cols name values) -> n = name \/ n ∈ map fst cols.
Proof.
  induction cols as [|[k c] cols IH]; simpl.
  - rewrite elem_of_cons. intros [->|H]; [now left | inversion H].
  - destruct (bool_decide_reflect (k = name)) as [->|]; simpl; rewrite !elem_of_cons.
    + intros [->|H]; auto.
    + intros [->|H]; [auto|]. destruct (IH H); auto.
Qed.

Lemma find_assigned (cols : list (string * list num)) (name : string) (values : list num) :
  snd <$> list_find (fun c => fst c = name) (assign_column cols name values) =
  Some (name, values).
Proof.
  induction cols as [|[n c] cols IH]; simpl.
  - now rewrite decide_True by reflexivity.
  - destruct (bool_decide_reflect (n = name)) as [->|Hne]; simpl.
    + now rewrite decide_True by reflexivity.
    + rewrite decide_False by exact Hne.
      destruct (list_find _ (assign_column cols name values)) as [[? ?]|];
        simpl in *; congruence.
Qed.

Lemma set_column_written (a b : DataFrame) (name : string) (values : list num) :
  set_column a name values = Ok b ->
  name ∈ column_names b /\ get_column b name = Ok values
  /\ length values = length (index a).
Proof.
  unfold set_column. intros H.
  destruct (bool_decide_reflect (length values = length (index a))) as [Hl|]; [|discriminate].
  injection H as <-. unfold column_names, get_column. simpl.
  split; [apply name_assigned|]. split; [|exact Hl].
  pose proof (find_assigned (columns a) name values) as E.
  destruct (list_find _ (assign_column (columns a) name values)) as [[? ?]|];
    simpl in E; [|discriminate]. now injection E as ->.
Qed.

Lemma set_column_other (a b : DataFrame) (name n : string) (values : list num) :
  n <> name -> set_column a name values = Ok b -> get_column b n = get_column a n.
Proof.
  unfold set_column. intros Hne H.
  destruct (bool_decide (length values = length (index a))); [|discriminate].
  injection H as <-. unfold get_column. simpl.
  pose proof (find_assign_other (columns a) name n values Hne) as E.
  destruct (list_find _ (assign_column (columns a) name values)) as [[? ?]|],
           (list_find _ (columns a)) as [[? ?]|]; simpl in E; congruence.
Qed.

Lemma set_column_names (a b : DataFrame) (name n : string) (values : list num) :
  set_column a name values = Ok b -> n ∈ column_names b -> n = name \/ n ∈ column_names a.
Proof.
  unfold set_column. intros H.
  destruct (bool_decide (length values = length (index a))); [|discriminate].
  injection H as <-. apply names_after_assign.
Qed.

Lemma append_tail_ne (s t : string) : t <> "" -> s ++ t <> s.
Proof.
  intros Ht. induction s as [|c s IH]; [exact Ht|].
  rewrite append_cons. congruence.
Qed.

Lemma interval_name_ne (model_name fn_name marker : string) (lv : Z) :
  marker <> "" ->
  model_name ++ "/" ++ fn_name ++ marker ++ pretty lv <> model_name ++ "/" ++ fn_name.
Proof.
  intros Hm E. apply String.app_inj, String.app_inj in E.
  apply (append_tail_ne fn_name (marker ++ pretty lv)); [|exact E].
  destruct marker; [congruence | discriminate].
Qed.

Lemma write_mean (level : option (list Z)) (bootstrap : bool) (pi_model_names : list string)
    (has_level : bool) (model_name fn_name : string) (fcsts_model : list (string * matrix))
    (a b : DataFrame) :
  write level bootstrap pi_model_names has_level model_name fn_name fcsts_model a = Ok b ->
  exists mean,
    result_get fcsts_model "mean" = Ok mean
    /\ get_column b (model_name ++ "/" ++ fn_name) = Ok (flatten mean)
    /\ length (flatten mean) = length (index a).
Proof.
  unfold write. intros H. invert_bind H as mean Hmean. invert_bind H as a1 H1.
  exists mean. apply set_column_written in H1 as (_ & Hget & Hlen).
  repeat split; auto. rewrite <- Hget.
  destruct (_ || _); [|now injection H as <-].
  revert H. generalize (default [] level). intros l. revert a1 Hget.
  induction l as [|lv l IH]; intros a1 Hget H; simpl in H.
  - now injection H as <-.
  - invert_bind H as a2 H2. unfold write_level in H2.
    invert_bind H2 as lo Hlo. invert_bind H2 as a3 H3. invert_bind H2 as hi Hhi.
    apply set_column_other with (n := model_name ++ "/" ++ fn_name) in H3;
      [|intros E; symmetry in E; revert E; now apply interval_name_ne].
    apply set_column_other with (n := model_name ++ "/" ++ fn_name) in H2;
      [|intros E; symmetry in E; revert E; now apply interval_name_ne].
    rewrite (IH a2); [congruence | congruence | exact H].
Qed.

Lemma iteration_writes_mean (Y_hat_df Y_df : DataFrame) (level : option (list Z))
    (bootstrap : bool) (uids pi_model_names : list string) (fn : Reconciler)
    (has_fitted has_level : bool) (st st' : gmap string val * DataFrame)
    (model_name : string) :
  iteration Y_hat_df Y_df level bootstrap uids pi_model_names fn (_build_fn_name fn)
            has_fitted has_level st model_name = Ok st' ->
  mean_column model_name fn ∈ column_names (snd st').
Proof.
  unfold iteration. intros H.
  invert_bind H as staged Hst. invert_bind H as fcsts_model Hcall.
  invert_bind H as written Hw. invert_bind H as purged Hp. injection H as <-. simpl.
  apply write_mean in Hw as (mean & _ & Hget & _). unfold mean_column.
  unfold get_column in Hget.
  destruct (list_find _ (columns written)) as [[i [n c]]|] eqn:E; [|discriminate].
  apply list_find_Some in E as (Hi & Hn & _). simpl in Hn. subst n.
  unfold column_names. apply list_elem_of_fmap. exists (model_name ++ "/" ++ _build_fn_name fn, c).
  split; [reflexivity|]. eapply list_elem_of_lookup_2. exact Hi.
Qed.

(** X7 (lines 96 to 143): in the table [reconcile] returns, every model
    column has a mean column for every reconciler, named with the model,
    a slash and the method's label. *)
Theorem every_pair_has_a_mean_column (reconcilers : list Reconciler)
    (Y_hat_df Y_df : DataFrame) (S : SFrame) (tags : list (string * list string))
    (level : option (list Z)) (bootstrap : bool) (fcsts : DataFrame)
    (fn : Reconciler) (model_name : string) :
  reconcile reconcilers Y_hat_df Y_df S tags level bootstrap = Ok fcsts ->
  fn ∈ reconcilers ->
  model_name ∈ model_names_of Y_hat_df ->
  mean_column model_name fn ∈ column_names fcsts.
Proof.
  intros H Hfn Hm. unfold reconcile in H.
  invert_bind H as common_vals Hcv. invert_bind H as st Hst. injection H as <-.
  set (P := fun (fn : Reconciler) (st : gmap string val * DataFrame) =>
              forall m, m ∈ model_names_of Y_hat_df ->
                        mean_column m fn ∈ column_names (snd st)).
  assert (Hest : forall a fn' a',
             per_reconciler Y_hat_df Y_df level bootstrap (unique (index Y_hat_df))
               (pi_model_names_of Y_hat_df) (model_names_of Y_hat_df) a fn' = Ok a' ->
             P fn' a').
  { intros a fn' a' Hper m Hm'. unfold per_reconciler in Hper.
    refine (foldM_establishes
              (fun m st => mean_column m fn' ∈ column_names (snd st)) _ _ _ _ _ _ Hper m Hm').
    - intros x m' x'. apply iteration_writes_mean.
    - intros x m1 x' m2 Hit Hin. apply iteration_extends in Hit.
      destruct Hit as (_ & _ & _ & Hn & _). auto. }
  assert (Hpres : forall a fn1 a' fn2,
             per_reconciler Y_hat_df Y_df level bootstrap (unique (index Y_hat_df))
               (pi_model_names_of Y_hat_df) (model_names_of Y_hat_df) a fn1 = Ok a' ->
             P fn2 a -> P fn2 a').
  { intros a fn1 a' fn2 Hper Hin m Hm'. apply per_reconciler_extends in Hper.
    destruct Hper as (_ & _ & _ & Hn & _). auto. }
  exact (foldM_establishes P _ Hest Hpres _ _ _ Hst fn Hfn model_name Hm).
Qed.

Lemma every_pair_has_a_mean_column_witness :
  mean_column "naive" (Examples.passthrough ["y_hat"]) ∈ column_names Examples.fcsts_naive.
Proof.
  apply (every_pair_has_a_mean_column [Examples.passthrough ["y_hat"]] Examples.Y_hat_naive
           Examples.Y_train Examples.S2 Examples.tags2 None false Examples.fcsts_naive
           (Examples.passthrough ["y_hat"]) "naive").
  - vm_compute. reflexivity.
  - now left.
  - apply (bool_decide_unpack _). vm_compute. exact I.
Defined.

(** Lines 143 to 148: when no level list is passed, [reconcile] adds
    mean columns and nothing else: every column of the result is a column
    of the base-forecast table or the mean column of a model and a
    reconciler. *)
Theorem only_mean_columns_without_level (reconcilers : list Reconciler)
    (Y_hat_df Y_df : DataFrame) (S : SFrame) (tags : list (string * list string))
    (bootstrap : bool) (fcsts : DataFrame) (name : string) :
  reconcile reconcilers Y_hat_df Y_df S tags None bootstrap = Ok fcsts ->
  name ∈ column_names fcsts ->
  name ∈ column_names Y_hat_df
  \/ exists fn model_name,
       fn ∈ reconcilers /\ model_name ∈ model_names_of Y_hat_df
       /\ name = mean_column model_name fn.
Proof.
  intros H. unfold reconcile in H.
  invert_bind H as common_vals Hcv. invert_bind H as st Hst. injection H as <-.
  set (I := fun st : gmap string val * DataFrame =>
              forall name, name ∈ column_names (snd st) ->
                name ∈ column_names Y_hat_df
                \/ exists fn model_name,
                     fn ∈ reconcilers /\ model_name ∈ model_names_of Y_hat_df
                     /\ name = mean_column model_name fn).
  assert (Hstep : forall a fn a', fn ∈ reconcilers -> I a ->
             per_reconciler Y_hat_df Y_df None bootstrap (unique (index Y_hat_df))
               (pi_model_names_of Y_hat_df) (model_names_of Y_hat_df) a fn = Ok a' ->
             I a').
  { intros a fn a' Hfn Ha Hper. unfold per_reconciler in Hper.
    refine (foldM_preserves I _ _ _ _ _ Ha Hper).
    intros x m x' Hm Hx Hit name' Hname. unfold iteration in Hit.
    invert_bind Hit as staged Hs. invert_bind Hit as fcsts_model Hcall.
    invert_bind Hit as written Hw. invert_bind Hit as purged Hp. injection Hit as <-.
    simpl in Hname. unfold write in Hw.
    invert_bind Hw as mean Hmean. invert_bind Hw as a1 H1.
    simpl in Hw. rewrite !andb_false_r in Hw. simpl in Hw. injection Hw as <-.
    destruct (set_column_names _ _ _ _ _ H1 Hname) as [->|Hold]; [|auto].
    right. exists fn, m. auto. }
  exact (foldM_preserves I _ _ Hstep (common_vals, Y_hat_df) st
           (fun n Hn => or_introl Hn) Hst name).
Qed.

Lemma only_mean_columns_without_level_witness :
  "naive/Passthrough" ∈ column_names Examples.Y_hat_naive
  \/ exists fn model_name,
       fn ∈ [Examples.passthrough ["y_hat"]]
       /\ model_name ∈ model_names_of Examples.Y_hat_naive
       /\ "naive/Passthrough" = mean_column model_name fn.
Proof.
  apply (only_mean_columns_without_level [Examples.passthrough ["y_hat"]]
           Examples.Y_hat_naive Examples.Y_train Examples.S2 Examples.tags2 false
           Examples.fcsts_naive "naive/Passthrough").
  - vm_compute. reflexivity.
  - apply (bool_decide_unpack _). vm_compute. exact I.
Defined.

(** X9 (lines 140 to 147): the mean column an iteration leaves in the
    table holds, row by row, the flattened [mean] the method returned for
    the staged inputs, one value per row of the table; the interval columns
    written after it do not touch it. *)
Theorem mean_column_holds_method_mean (Y_hat_df Y_df : DataFrame) (level : option (list Z))
    (bootstrap : bool) (uids pi_model_names : list string) (fn : Reconciler)
    (has_fitted has_level : bool) (st st' : gmap string val * DataFrame)
    (model_name : string) :
  iteration Y_hat_df Y_df level bootstrap uids pi_model_names fn (_build_fn_name fn)
            has_fitted has_level st model_name = Ok st' ->
  exists y_hat_model staged fcsts_model mean,
    stage Y_hat_df Y_df level bootstrap uids pi_model_names has_fitted has_level
          model_name (fst st) = Ok (y_hat_model, staged)
    /\ call fn y_hat_model (build_kwargs fn staged) = Ok fcsts_model
    /\ result_get fcsts_model "mean" = Ok mean
    /\ get_column (snd st') (mean_column model_name fn) = Ok (flatten mean)
    /\ length (flatten mean) = length (index (snd st)).
Proof.
  unfold iteration. intros H.
  invert_bind H as staged Hst. invert_bind H as fcsts_model Hcall.
  invert_bind H as written Hw. invert_bind H as purged Hp. injection H as <-. simpl.
  destruct staged as [y_hat_model staged]. simpl in *.
  apply write_mean in Hw as (mean & Hmean & Hget & Hlen).
  exists y_hat_model, staged, fcsts_model, mean. auto.
Qed.

Lemma mean_column_holds_method_mean_witness :
  exists y_hat_model staged fcsts_model mean,
    stage Examples.Y_hat_naive Examples.Y_train None false ["total"; "regionA"] []
          false false "naive" (fst (Examples.only_S, Examples.Y_hat_naive))
      = Ok (y_hat_model, staged)
    /\ call (Examples.passthrough ["y_hat"]) y_hat_model
            (build_kwargs (Examples.passthrough ["y_hat"]) staged) = Ok fcsts_model
    /\ result_get fcsts_model "mean" = Ok mean
    /\ get_column (snd (Examples.only_S, Examples.fcsts_naive))
                  (mean_column "naive" (Examples.passthrough ["y_hat"])) = Ok (flatten mean)
    /\ length (flatten mean) = length (index (snd (Examples.only_S, Examples.Y_hat_naive))).
Proof.
  apply (mean_column_holds_method_mean Examples.Y_hat_naive Examples.Y_train None false
           ["total"; "regionA"] [] (Examples.passthrough ["y_hat"]) false false
           (Examples.only_S, Examples.Y_hat_naive) (Examples.only_S, Examples.fcsts_naive)
           "naive").
  vm_compute. reflexivity.
Defined.

(** ** Nothing to reconcile *)

(** X10 (lines 86 to 96, 100 and 156): with no reconciler, or with no model
    column, the loops do nothing: once the shared context is built (so the
    hierarchy and the training table are still checked), [reconcile]
    returns the base-forecast table as it is. *)
Theorem nothing_to_reconcile (reconcilers : list Reconciler) (Y_hat_df Y_df : DataFrame)
    (S : SFrame) (tags : list (string * list string)) (level : option (list Z))
    (bootstrap : bool) (common_vals : gmap string val) :
  build_common_vals Y_df S tags (unique (index Y_hat_df)) = Ok common_vals ->
  reconcilers = [] \/ model_names_of Y_hat_df = [] ->
  reconcile reconcilers Y_hat_df Y_df S tags level bootstrap = Ok Y_hat_df.
Proof.
  intros Hcv Hnone. unfold reconcile. rewrite Hcv. simpl.
  destruct Hnone as [-> | ->]; [reflexivity|].
  induction reconcilers as [|fn reconcilers IH]; [reflexivity|].
  simpl. unfold per_reconciler at 1. simpl. exact IH.
Qed.

Lemma nothing_to_reconcile_witness :
  reconcile [] Examples.Y_hat_naive Examples.Y_train Examples.S2 Examples.tags2
            (Some [80]) true = Ok Examples.Y_hat_naive.
Proof.
  apply (nothing_to_reconcile [] Examples.Y_hat_naive Examples.Y_train Examples.S2
           Examples.tags2 (Some [80]) true Examples.ctx_naive).
  - vm_compute. reflexivity.
  - now left.
Defined.

(** ** Labels of methods with one free-form hyperparameter *)

Lemma join_render_inj_last (init1 init2 : list (string * pyval)) (n : string)
    (v1 v2 : pyval) :
  map fst init1 = map fst init2 ->
  Forall (fun kv => contains "_" (py_str (snd kv)) = false) init1 ->
  Forall (fun kv => contains "_" (py_str (snd kv)) = false) init2 ->
  join "_" (map render (init1 ++ [(n, v1)])) = join "_" (map render (init2 ++ [(n, v2)])) ->
  map (fun kv => py_str (snd kv)) (init1 ++ [(n, v1)]) =
  map (fun kv => py_str (snd kv)) (init2 ++ [(n, v2)]).
Proof.
  revert init2. induction init1 as [|[n1 w1] init1 IH]; intros [|[n2 w2] init2] Hn H1 H2 E;
    try discriminate.
  - simpl in E |- *. change (render (n, v1)) with (n ++ "-" ++ py_str v1) in E.
    change (render (n, v2)) with (n ++ "-" ++ py_str v2) in E.
    apply String.app_inj, String.app_inj in E. now rewrite E.
  - simpl in Hn. injection Hn as <- Hn.
    inversion H1 as [|? ? Hw1 H1']; subst. inversion H2 as [|? ? Hw2 H2']; subst.
    simpl in Hw1, Hw2. rewrite <- !app_comm_cons in E. cbn [map] in E.
    rewrite !join_cons in E.
    change (render (n1, w1)) with (n1 ++ "-" ++ py_str w1) in E.
    change (render (n1, w2)) with (n1 ++ "-" ++ py_str w2) in E.
    rewrite !append_assoc in E.
    apply String.app_inj in E. rewrite !append_cons, !append_nil in E. injection E as E.
    assert (Hne : forall (l : list (string * pyval)) x, map render (l ++ [x]) <> [])
      by (intros [|? ?] ?; discriminate).
    destruct (map render (init1 ++ [(n, v1)])) as [|r1 l1] eqn:E1; [now apply Hne in E1|].
    destruct (map render (init2 ++ [(n, v2)])) as [|r2 l2] eqn:E2; [now apply Hne in E2|].
    apply split_at_underscore in E as [Ev Et]; auto; [|right; eauto|right; eauto].
    rewrite <- !app_comm_cons. cbn [map]. simpl snd. rewrite Ev. f_equal.
    apply IH; auto. rewrite E2. now injection Et.
Qed.

(** X11 (lines 18 to 24): the last hyperparameter may hold any text.  Two
    instances of one type whose hyperparameters have the same names, with
    no underscore in the written values of all but the last, get different
    labels as soon as their written values differ; so methods of one type
    with a single hyperparameter never share a label. *)
Theorem build_fn_name_distinct_last (fn1 fn2 : Reconciler)
    (init1 init2 : list (string * pyval)) (n : string) (v1 v2 : pyval) :
  type_name fn1 = type_name fn2 ->
  dict fn1 = (init1 ++ [(n, v1)])%list ->
  dict fn2 = (init2 ++ [(n, v2)])%list ->
  map fst init1 = map fst init2 ->
  Forall (fun kv => contains "_" (py_str (snd kv)) = false) init1 ->
  Forall (fun kv => contains "_" (py_str (snd kv)) = false) init2 ->
  map (fun kv => py_str (snd kv)) (dict fn1) <> map (fun kv => py_str (snd kv)) (dict fn2) ->
  _build_fn_name fn1 <> _build_fn_name fn2.
Proof.
  intros HT Hd1 Hd2 Hn H1 H2 Hv E. apply Hv. clear Hv.
  unfold _build_fn_name in E. rewrite !build_fn_name_of_render, HT, Hd1, Hd2 in E.
  rewrite Hd1, Hd2.
  destruct (init1 ++ [(n, v1)])%list as [|kv1 d1] eqn:E1;
    [destruct init1; discriminate|].
  destruct (init2 ++ [(n, v2)])%list as [|kv2 d2] eqn:E2;
    [destruct init2; discriminate|].
  apply String.app_inj, String.app_inj in E. rewrite <- E1, <- E2 in E |- *.
  now apply join_render_inj_last.
Qed.

Lemma build_fn_name_distinct_last_witness :
  _build_fn_name (mintrace [("method", PStr "wls_shrink")]) <>
  _build_fn_name (mintrace [("method", PStr "wls_struct")]).
Proof.
  apply (build_fn_name_distinct_last (mintrace [("method", PStr "wls_shrink")])
           (mintrace [("method", PStr "wls_struct")]) [] [] "method"
           (PStr "wls_shrink") (PStr "wls_struct")).
  - reflexivity.
  - reflexivity.
  - reflexivity.
  - reflexivity.
  - constructor.
  - constructor.
  - simpl. discriminate.
Defined.

(** ** Interval columns of the result *)

Lemma write_level_names (model_name : string) (fn : Reconciler)
    (fcsts_model : list (string * matrix)) (a b : DataFrame) (lv : Z) :
  write_level model_name (_build_fn_name fn) fcsts_model a lv = Ok b ->
  lo_column model_name fn lv ∈ column_names b /\ hi_column model_name fn lv ∈ column_names b.
Proof.
  unfold write_level. intros H.
  invert_bind H as lo Hlo. invert_bind H as a1 H1. invert_bind H as hi Hhi.
  pose proof (set_column_extends _ _ _ _ (slash_in_name _ _) H) as (_ & _ & _ & Hn & _).
  apply set_column_written in H1 as (H1 & _). apply set_column_written in H as (H & _).
  split; [apply Hn; exact H1 | exact H].
Qed.

Lemma loops_establish (Y_hat_df Y_df : DataFrame) (level : option (list Z)) (bootstrap : bool)
    (uids pi_model_names model_names : list string)
    (Q : Reconciler -> string -> DataFrame -> Prop) :
  (forall fn m st st',
     iteration Y_hat_df Y_df level bootstrap uids pi_model_names fn (_build_fn_name fn)
               (bool_decide ("y_hat_insample" ∈ parameters fn))
               (bool_decide ("level" ∈ parameters fn)) st m = Ok st' ->
     Q fn m (snd st')) ->
  (forall fn m a b, extends a b -> Q fn m a -> Q fn m b) ->
  forall reconcilers st st',
    run_loops Y_hat_df Y_df level bootstrap uids pi_model_names model_names st reconcilers
      = Ok st' ->
    forall fn m, fn ∈ reconcilers -> m ∈ model_names -> Q fn m (snd st').
Proof.
  intros Hest Hext reconcilers st st' Hrun fn m Hfn Hm. unfold run_loops in Hrun.
  set (P := fun (fn : Reconciler) (st : gmap string val * DataFrame) =>
              forall m, m ∈ model_names -> Q fn m (snd st)).
  refine (foldM_establishes P _ _ _ _ _ _ Hrun fn Hfn m Hm).
  - intros a fn' a' Hper m' Hm'. unfold per_reconciler in Hper.
    refine (foldM_establishes (fun m st => Q fn' m (snd st)) _ _ _ _ _ _ Hper m' Hm').
    + intros x m1 x'. apply Hest.
    + intros x m1 x' m2 Hit. apply Hext. eapply iteration_extends. exact Hit.
  - intros a fn1 a' fn2 Hper HP m' Hm'. eapply Hext; [|apply HP; exact Hm'].
    eapply per_reconciler_extends. exact Hper.
Qed.

(** X12 (lines 144 to 147): when a level list is passed, the result has a
    lower and an upper column for every level, for every reconciler and
    model in bootstrap mode, and with bootstrap off for every reconciler
    whose signature names [level] and every model that has an interval
    column. *)
Theorem interval_columns_written (reconcilers : list Reconciler)
    (Y_hat_df Y_df : DataFrame) (S : SFrame) (tags : list (string * list string))
    (levels : list Z) (bootstrap : bool) (fcsts : DataFrame)
    (fn : Reconciler) (model_name : string) (lv : Z) :
  reconcile reconcilers Y_hat_df Y_df S tags (Some levels) bootstrap = Ok fcsts ->
  fn ∈ reconcilers ->
  model_name ∈ model_names_of Y_hat_df ->
  lv ∈ levels ->
  bootstrap = true
  \/ (pi_of (pi_model_names_of Y_hat_df) model_name = true /\ "level" ∈ parameters fn) ->
  lo_column model_name fn lv ∈ column_names fcsts
  /\ hi_column model_name fn lv ∈ column_names fcsts.
Proof.
  intros H Hfn Hm Hlv Hgate. rewrite reconcile_run_loops in H.
  invert_bind H as common_vals Hcv. invert_bind H as st Hst. injection H as <-.
  refine (loops_establish _ _ _ _ _ _ _
            (fun fn m df =>
               bootstrap = true
               \/ (pi_of (pi_model_names_of Y_hat_df) m = true /\ "level" ∈ parameters fn) ->
               lo_column m fn lv ∈ column_names df /\ hi_column m fn lv ∈ column_names df)
            _ _ _ _ _ Hst fn model_name Hfn Hm Hgate).
  - clear Hgate Hfn Hm Hst. intros fn' m st' st'' Hit Hgate. unfold iteration in Hit.
    invert_bind Hit as staged Hs. invert_bind Hit as fcsts_model Hcall.
    invert_bind Hit as written Hw. invert_bind Hit as purged Hp. injection Hit as <-.
    simpl. unfold write in Hw. invert_bind Hw as mean Hmean. invert_bind Hw as a1 H1.
    replace (_ || _) with true in Hw.
    + simpl in Hw.
      exact (foldM_establishes
               (fun lv df => lo_column m fn' lv ∈ column_names df
                             /\ hi_column m fn' lv ∈ column_names df)
               _ (fun a lv' a' => write_level_names m fn' fcsts_model a a' lv')
               (fun a lv1 a' lv2 Hwl HP =>
                  let Hn := proj1 (proj2 (proj2 (proj2 (write_level_extends _ _ _ _ _ _ Hwl)))) in
                  conj (Hn _ (proj1 HP)) (Hn _ (proj2 HP)))
               _ _ _ Hw lv Hlv).
    + symmetry. simpl. rewrite !andb_true_r.
      destruct Hgate as [-> | [-> Hl]]; [apply orb_true_r|].
      now rewrite bool_decide_eq_true_2 by exact Hl.
  - intros fn0 m a b (_ & _ & _ & Hn & _) HQ Hg. destruct (HQ Hg). auto.
Qed.

Lemma interval_columns_written_witness :
  lo_column "naive" (Examples.passthrough ["y_hat"; "level"; "sigmah"]) 80
    ∈ column_names Examples.fcsts_pi
  /\ hi_column "naive" (Examples.passthrough ["y_hat"; "level"; "sigmah"]) 80
       ∈ column_names Examples.fcsts_pi.
Proof.
  apply (interval_columns_written [Examples.passthrough ["y_hat"; "level"; "sigmah"]]
           Examples.Y_hat_pi Examples.Y_train Examples.S2 Examples.tags2 [80] false
           Examples.fcsts_pi (Examples.passthrough ["y_hat"; "level"; "sigmah"]) "naive" 80).
  - vm_compute. reflexivity.
  - now left.
  - apply (bool_decide_unpack _). vm_compute. exact I.
  - now left.
  - right. split; [vm_compute; reflexivity|].
    apply (bool_decide_unpack _). vm_compute. exact I.
Defined.

(** ** From the long table to the wide one *)

(** The first row with a key, in a list whose keys are not repeated, is
    the row at the position of the key. *)
Lemma find_key_at {K V : Type} `{EqDecision K} (keys : list K) (vals : list V)
    (p : nat) (k : K) (v : V) :
  NoDup keys -> keys !! p = Some k -> vals !! p = Some v ->
  list_find (fun r => fst r = k) (zip keys vals) = Some (p, (k, v)).
Proof.
  intros Hnd Hk Hv.
  assert (Hrow : zip keys vals !! p = Some (k, v)) by now apply lookup_zip_Some.
  destruct (list_find _ _) as [[i [k' w]]|] eqn:E.
  - apply list_find_Some in E as (Hi & Hk' & _). simpl in Hk'. subst k'.
    apply lookup_zip_Some in Hi as [Hi Hw].
    assert (i = p) as -> by (eapply NoDup_lookup; eauto). congruence.
  - apply list_find_None in E. rewrite Forall_forall in E.
    exfalso. apply (E (k, v)); [eapply list_elem_of_lookup_2; eauto | reflexivity].
Qed.

(** ** Tables laid out as a grid *)

Lemma lookup_flat_map_blocks {A B : Type} (f : A -> list B) (k : nat) (l : list A)
    (p : nat) :
  (0 < k)%nat -> (forall a, length (f a) = k) ->
  flat_map f l !! p = l !! Nat.div p k ≫= (fun a => f a !! Nat.modulo p k).
Proof.
  intros Hk Hlen. revert p. induction l as [|a l IH]; intros p; [reflexivity|].
  simpl flat_map. destruct (lt_dec p k) as [Hlt|Hge].
  - rewrite lookup_app_l by (rewrite Hlen; exact Hlt).
    rewrite Nat.div_small, Nat.mod_small by exact Hlt. reflexivity.
  - rewrite lookup_app_r by (rewrite Hlen; lia). rewrite Hlen, IH.
    assert (Hdiv : Nat.div p k = S (Nat.div (p - k) k)).
    { replace p with ((p - k) + 1 * k)%nat at 1 by lia.
      rewrite Nat.div_add by lia. lia. }
    assert (Hmod : Nat.modulo p k = Nat.modulo (p - k) k).
    { replace p with ((p - k) + 1 * k)%nat at 1 by lia.
      now rewrite Nat.Div0.mod_add. }
    now rewrite Hdiv, Hmod.
Qed.

Lemma unique_from_seen_block {A : Type} `{EqDecision A} (seen : list A) (u : A) (k : nat)
    (R : list A) :
  u ∈ seen -> unique_from seen (replicate k u ++ R) = unique_from seen R.
Proof.
  intros Hu. induction k as [|k IH]; [reflexivity|].
  simpl. now rewrite bool_decide_eq_true_2 by exact Hu.
Qed.

Lemma unique_from_grid (seen uids : list string) (k : nat) :
  (0 < k)%nat -> NoDup uids -> (forall u, u ∈ uids -> u ∉ seen) ->
  unique_from seen (flat_map (fun u => replicate k u) uids) = uids.
Proof.
  intros Hk Hnd. revert seen. induction Hnd as [|u uids Hu Hnd IH]; intros seen Hfresh;
    [reflexivity|].
  simpl flat_map. destruct k as [|k]; [lia|]. simpl.
  rewrite bool_decide_eq_false_2 by (apply Hfresh; now left).
  rewrite unique_from_seen_block by now left. f_equal. apply IH.
  intros u' Hu' Hin. apply elem_of_cons in Hin as [->|Hin]; [contradiction|].
  apply (Hfresh u'); [now right | exact Hin].
Qed.

Lemma unique_from_all_seen {A : Type} `{EqDecision A} (seen l : list A) :
  (forall x, x ∈ l -> x ∈ seen) -> unique_from seen l = [].
Proof.
  induction l as [|x l IH]; intros H; [reflexivity|]. simpl.
  rewrite bool_decide_eq_true_2 by (apply H; now left).
  apply IH. intros y Hy. apply H. now right.
Qed.

Lemma unique_from_fresh {A : Type} `{EqDecision A} (seen ts R : list A) :
  NoDup ts -> (forall t, t ∈ ts -> t ∉ seen) ->
  unique_from seen (ts ++ R) = (ts ++ unique_from (rev ts ++ seen) R)%list.
Proof.
  intros Hnd. revert seen. induction Hnd as [|t ts Ht Hnd IH]; intros seen Hfresh;
    [reflexivity|].
  simpl. rewrite bool_decide_eq_false_2 by (apply Hfresh; now left).
  f_equal. rewrite IH.
  - now rewrite <- app_assoc.
  - intros t' Ht' Hin. apply elem_of_cons in Hin as [->|Hin]; [contradiction|].
    apply (Hfresh t'); [now right | exact Hin].
Qed.

Lemma unique_grid_ds (uids : list string) (ts : list Z) :
  uids <> [] -> NoDup ts -> unique (grid_ds uids ts) = ts.
Proof.
  intros Hne Hnd. destruct uids as [|u uids]; [congruence|].
  unfold unique, grid_ds. simpl flat_map.
  rewrite unique_from_fresh by (auto; intros t _ H; inversion H).
  rewrite unique_from_all_seen; [apply app_nil_r|].
  intros t Ht. rewrite list_elem_of_In in Ht |- *.
  apply in_flat_map in Ht as (u' & _ & Ht).
  apply in_or_app. left. now apply in_rev in Ht.
Qed.

Lemma sort_ascending (ts : list Z) : StronglySorted Z.lt ts -> sort Z.leb ts = ts.
Proof.
  induction 1 as [|t ts Hs IH Hall]; [reflexivity|].
  unfold sort in *. simpl. rewrite IH. destruct ts as [|t2 ts]; [reflexivity|].
  simpl. inversion Hall; subst. now rewrite (proj2 (Z.leb_le t t2)) by lia.
Qed.

Lemma NoDup_ascending (ts : list Z) : StronglySorted Z.lt ts -> NoDup ts.
Proof.
  induction 1 as [|t ts Hs IH Hall]; constructor; [|exact IH].
  intros Hin. rewrite Forall_forall in Hall. specialize (Hall t Hin). lia.
Qed.

Lemma grid_empty (uids : list string) (ts : list Z) :
  uids = [] \/ ts = [] -> grid_index uids ts = [].
Proof.
  unfold grid_index. intros [-> | ->]; [reflexivity|].
  induction uids as [|u uids IH]; [reflexivity | exact IH].
Qed.

Lemma pivot_loc_values_matrix (df : DataFrame) (name : string) (vals : list num) :
  get_column df name = Ok vals ->
  NoDup (zip (index df) (ds df)) ->
  pivot_loc_values df name (unique (index df)) =
    Ok (map (fun u => map (fun t => pivot_cell (long_rows df vals) u t)
                          (sorted_unique_ds (ds df)))
            (unique (index df))).
Proof.
  intros Hcol Hnd. unfold pivot_loc_values, pivot. rewrite Hcol. simpl.
  unfold has_duplicates. rewrite bool_decide_eq_true_2 by exact Hnd. simpl.
  unfold wide_loc_values. simpl.
  assert (Hperm : sorted_unique_labels (index df) ≡ₚ unique (index df)) by apply sort_perm.
  rewrite filter_none
    by (intros u Hu; apply negb_false_iff, bool_decide_eq_true; now rewrite Hperm).
  f_equal. apply flat_map_singleton. intros u Hu.
  apply (loc_row (fun u => map (fun t => pivot_cell (long_rows df vals) u t)
                               (sorted_unique_ds (ds df)))).
  - rewrite Hperm. apply NoDup_unique_from.
  - now rewrite Hperm.
Qed.

Lemma grid_index_lookup (uids : list string) (ts : list Z) (p : nat) (u : string) :
  ts <> [] ->
  grid_index uids ts !! p = Some u <->
  uids !! Nat.div p (length ts) = Some u.
Proof.
  intros Hts. assert (Hk : (0 < length ts)%nat) by (destruct ts; [congruence | simpl; lia]).
  unfold grid_index.
  rewrite (lookup_flat_map_blocks _ (length ts)) by (auto using length_replicate).
  destruct (uids !! Nat.div p (length ts)) as [u'|]; simpl; [|tauto].
  rewrite lookup_replicate. split.
  - now intros [-> _].
  - intros [= ->]. split; [reflexivity|]. apply Nat.mod_upper_bound. lia.
Qed.

Lemma grid_ds_lookup (uids : list string) (ts : list Z) (p : nat) (t : Z) :
  ts <> [] ->
  grid_ds uids ts !! p = Some t <->
  is_Some (uids !! Nat.div p (length ts)) /\ ts !! Nat.modulo p (length ts) = Some t.
Proof.
  intros Hts. assert (Hk : (0 < length ts)%nat) by (destruct ts; [congruence | simpl; lia]).
  unfold grid_ds. rewrite (lookup_flat_map_blocks _ (length ts)) by auto.
  destruct (uids !! Nat.div p (length ts)) as [u'|]; simpl.
  - split; [eauto | tauto].
  - split; [discriminate | intros [[? ?] _]; discriminate].
Qed.

Lemma grid_keys_NoDup (uids : list string) (ts : list Z) :
  NoDup uids -> NoDup ts -> NoDup (zip (grid_index uids ts) (grid_ds uids ts)).
Proof.
  intros Hu Ht. destruct (decide (ts = [])) as [->|Hts].
  - rewrite grid_empty by now right. constructor.
  - apply NoDup_alt. intros i j [u t] Hi Hj.
    apply lookup_zip_Some in Hi as [Hiu Hit]. apply lookup_zip_Some in Hj as [Hju Hjt].
    apply grid_index_lookup in Hiu, Hju; try exact Hts.
    apply grid_ds_lookup in Hit as [_ Hit], Hjt as [_ Hjt]; try exact Hts.
    assert (Hd : Nat.div i (length ts) = Nat.div j (length ts))
      by exact (NoDup_lookup uids _ _ u Hu Hiu Hju).
    assert (Hm : Nat.modulo i (length ts) = Nat.modulo j (length ts))
      by exact (NoDup_lookup ts _ _ t Ht Hit Hjt).
    rewrite (Nat.div_mod_eq i (length ts)), (Nat.div_mod_eq j (length ts)). congruence.
Qed.

(** The matrix of a grid, flattened, is the column. *)
Lemma grid_matrix_flatten (df : DataFrame) (vals : list num) (uids : list string)
    (ts : list Z) :
  NoDup uids ->
  StronglySorted Z.lt ts ->
  index df = grid_index uids ts ->
  ds df = grid_ds uids ts ->
  length vals = length (index df) ->
  flatten (map (fun u => map (fun t => pivot_cell (long_rows df vals) u t)
                             (sorted_unique_ds (ds df)))
               (unique (index df))) = vals.
Proof.
  intros Hu Hs Hidx Hds Hlen.
  assert (Hnd : NoDup (zip (index df) (ds df)))
    by (rewrite Hidx, Hds; auto using grid_keys_NoDup, NoDup_ascending).
  destruct (decide (uids = [] \/ ts = [])) as [Hempty|Hfull].
  - rewrite Hidx, grid_empty in Hlen |- * by exact Hempty.
    destruct vals; [reflexivity | discriminate].
  - assert (Hne : uids <> []) by tauto. assert (Hts : ts <> []) by tauto.
    assert (Hk : (0 < length ts)%nat) by (destruct ts; [congruence | simpl; lia]).
    replace (unique (index df)) with uids
      by (rewrite Hidx; symmetry; apply unique_from_grid; auto; intros ? _ H; inversion H).
    replace (sorted_unique_ds (ds df)) with ts
      by (unfold sorted_unique_ds;
          rewrite Hds, unique_grid_ds, sort_ascending; auto using NoDup_ascending).
    unfold flatten. rewrite <- flat_map_concat_map.
    apply list_eq. intros p.
    rewrite (lookup_flat_map_blocks _ (length ts)) by (auto using length_map).
    destruct (uids !! Nat.div p (length ts)) as [u|] eqn:Eu; simpl.
    + destruct (lookup_lt_is_Some_2 ts (Nat.modulo p (length ts))) as [t Et];
        [apply Nat.mod_upper_bound; lia|].
      rewrite lookup_map, Et. simpl.
      assert (Hpu : index df !! p = Some u) by (rewrite Hidx; now apply grid_index_lookup).
      assert (Hpt : ds df !! p = Some t) by (rewrite Hds; apply grid_ds_lookup; eauto).
      destruct (lookup_lt_is_Some_2 vals p) as [v Ev];
        [rewrite Hlen; eapply lookup_lt_Some; exact Hpu|].
      rewrite Ev. f_equal. unfold pivot_cell, long_rows.
      assert (Hkey : zip (index df) (ds df) !! p = Some (u, t)) by now apply lookup_zip_Some.
      now rewrite (find_key_at _ _ p (u, t) v Hnd Hkey Ev).
    + symmetry. apply lookup_ge_None. rewrite Hlen. apply lookup_ge_None.
      destruct (index df !! p) as [u|] eqn:E; [|reflexivity].
      rewrite Hidx in E. apply grid_index_lookup in E; [congruence | exact Hts].
Qed.

(** X14 (lines 105 and 143): for a table laid out as a grid, every series
    in turn with the same ascending timestamps, pivoting a column to the
    matrix of series by time and flattening the matrix gives the column
    back, row for row.  So the values a method leaves in place land in the
    rows they came from. *)
Theorem grid_round_trip (df : DataFrame) (name : string) (vals : list num)
    (uids : list string) (ts : list Z) :
  NoDup uids ->
  StronglySorted Z.lt ts ->
  index df = grid_index uids ts ->
  ds df = grid_ds uids ts ->
  get_column df name = Ok vals ->
  length vals = length (index df) ->
  exists m : matrix,
    pivot_loc_values df name (unique (index df)) = Ok m
    /\ flatten m = vals.
Proof.
  intros Hu Hs Hidx Hds Hcol Hlen.
  assert (Hnd : NoDup (zip (index df) (ds df)))
    by (rewrite Hidx, Hds; auto using grid_keys_NoDup, NoDup_ascending).
  eexists. split; [apply pivot_loc_values_matrix; eassumption|].
  now apply (grid_matrix_flatten df vals uids ts).
Qed.

Lemma grid_round_trip_witness :
  exists m : matrix,
    pivot_loc_values Examples.Y_hat_pi "naive-lo-80" (unique (index Examples.Y_hat_pi)) = Ok m
    /\ flatten m = Examples.sevens.
Proof.
  apply (grid_round_trip Examples.Y_hat_pi "naive-lo-80" Examples.sevens
           ["total"; "regionA"] [1; 2; 3]).
  - apply (bool_decide_unpack _). vm_compute. exact I.
  - repeat constructor; lia.
  - reflexivity.
  - reflexivity.
  - reflexivity.
  - reflexivity.
Defined.

(** X15 (lines 105 and 140 to 143): for a base-forecast table laid out as
    a grid, an iteration with a method that returns the forecasts it is
    given as its mean writes a mean column equal to the model's column. *)
Theorem identity_method_copies_model (Y_hat_df Y_df : DataFrame) (level : option (list Z))
    (bootstrap : bool) (pi_model_names : list string) (fn : Reconciler)
    (has_fitted has_level : bool) (st st' : gmap string val * DataFrame)
    (model_name : string) (vals : list num) (uids : list string) (ts : list Z) :
  NoDup uids ->
  StronglySorted Z.lt ts ->
  index Y_hat_df = grid_index uids ts ->
  ds Y_hat_df = grid_ds uids ts ->
  get_column Y_hat_df model_name = Ok vals ->
  length vals = length (index Y_hat_df) ->
  (forall y_hat kwargs fcsts_model,
     call fn y_hat kwargs = Ok fcsts_model -> result_get fcsts_model "mean" = Ok y_hat) ->
  iteration Y_hat_df Y_df level bootstrap (unique (index Y_hat_df)) pi_model_names fn
            (_build_fn_name fn) has_fitted has_level st model_name = Ok st' ->
  get_column (snd st') (mean_column model_name fn) = Ok vals.
Proof.
  intros Hu Hs Hidx Hds Hcol Hlen Hid H. unfold iteration in H.
  invert_bind H as staged Hst. invert_bind H as fcsts_model Hcall.
  invert_bind H as written Hw. invert_bind H as purged Hp. injection H as <-. simpl.
  apply write_mean in Hw as (mean & Hmean & Hget & _).
  rewrite (Hid _ _ _ Hcall) in Hmean. injection Hmean as <-.
  unfold stage in Hst. invert_bind Hst as y Hy. invert_bind Hst as cv1 H1.
  invert_bind Hst as cv2 H2. injection Hst as <-. simpl in Hget.
  assert (Hnd : NoDup (zip (index Y_hat_df) (ds Y_hat_df)))
    by (rewrite Hidx, Hds; auto using grid_keys_NoDup, NoDup_ascending).
  rewrite (pivot_loc_values_matrix _ _ _ Hcol Hnd) in Hy. injection Hy as <-.
  unfold mean_column. rewrite Hget. f_equal.
  now apply (grid_matrix_flatten Y_hat_df vals uids ts).
Qed.

Lemma identity_method_copies_model_witness :
  get_column (snd (Examples.only_S, Examples.fcsts_naive))
             (mean_column "naive" (Examples.passthrough ["y_hat"])) = Ok Examples.tens.
Proof.
  apply (identity_method_copies_model Examples.Y_hat_naive Examples.Y_train None false []
           (Examples.passthrough ["y_hat"]) false false
           (Examples.only_S, Examples.Y_hat_naive) (Examples.only_S, Examples.fcsts_naive)
           "naive" Examples.tens ["total"; "regionA"] [1; 2; 3]).
  - apply (bool_decide_unpack _). vm_compute. exact I.
  - repeat constructor; lia.
  - reflexivity.
  - reflexivity.
  - reflexivity.
  - reflexivity.
  - intros y_hat kwargs fcsts_model H. injection H as <-. reflexivity.
  - vm_compute. reflexivity.
Defined.

(** ** The positions of the bottom series *)

Lemma s_loc_index (S S_ : SFrame) (uids : list string) :
  NoDup (s_index S) ->
  length (s_values S) = length (s_index S) ->
  (forall u, u ∈ uids -> u ∈ s_index S) ->
  s_loc S uids = Ok S_ ->
  s_index S_ = uids.
Proof.
  intros Hnd Hlen Hall H. unfold s_loc in H.
  rewrite filter_none in H
    by (intros u Hu; apply negb_false_iff, bool_decide_eq_true; auto).
  injection H as <-. simpl. clear -Hnd Hlen Hall.
  induction uids as [|u uids IH]; [reflexivity|]. simpl.
  assert (Hu : u ∈ s_index S) by (apply Hall; now left).
  apply list_elem_of_lookup_1 in Hu as [j Hj].
  destruct (s_values S !! j) as [r|] eqn:Hr.
  - rewrite (filter_label_at _ _ u j r Hnd Hj Hr). simpl. f_equal.
    apply IH. intros u' Hu'. apply Hall. now right.
  - apply lookup_ge_None in Hr. apply lookup_lt_Some in Hj. lia.
Qed.

Lemma position_found (idx : list string) (label : string) :
  label ∈ idx ->
  0 <= position idx label /\ idx !! Z.to_nat (position idx label) = Some label.
Proof.
  intros Hin. unfold position.
  destruct (list_find _ idx) as [[i l]|] eqn:E.
  - apply list_find_Some in E as (Hi & -> & _). split; [lia|]. now rewrite Nat2Z.id.
  - apply list_find_None in E. rewrite Forall_forall in E. now apply E in Hin.
Qed.

Lemma position_absent (idx : list string) (label : string) :
  label ∉ idx -> position idx label = -1.
Proof.
  intros Hout. unfold position.
  destruct (list_find _ idx) as [[i l]|] eqn:E; [|reflexivity].
  apply list_find_Some in E as (Hi & -> & _). exfalso. apply Hout.
  eapply list_elem_of_lookup_2. exact Hi.
Qed.

(** X16 (lines 88 to 92): when the row index of [S] has no repeated label
    and has every series of the forecasts, the shared context holds, for
    every column of [S], the position of that bottom series among the
    series of the forecasts; a bottom series that has no forecast raises
    nothing and gets the position -1. *)
Theorem idx_bottom_positions (Y_df : DataFrame) (S : SFrame)
    (tags : list (string * list string)) (uids : list string)
    (common_vals : gmap string val) :
  NoDup (s_index S) ->
  length (s_values S) = length (s_index S) ->
  (forall u, u ∈ uids -> u ∈ s_index S) ->
  build_common_vals Y_df S tags uids = Ok common_vals ->
  exists idx_bottom : list Z,
    common_vals !! "idx_bottom" = Some (VIndexer idx_bottom)
    /\ length idx_bottom = length (s_columns S)
    /\ forall j b, s_columns S !! j = Some b ->
         exists z, idx_bottom !! j = Some z
           /\ (b ∈ uids -> 0 <= z /\ uids !! Z.to_nat z = Some b)
           /\ (b ∉ uids -> z = -1).
Proof.
  intros Hnd Hlen Hall H. unfold build_common_vals in H.
  invert_bind H as S_ HS. invert_bind H as y_insample Hy.
  invert_bind H as idx_bottom Hi. invert_bind H as tags' Ht. injection H as <-.
  rewrite (s_loc_index _ _ _ Hnd Hlen Hall HS) in Hi. unfold get_indexer in Hi.
  destruct (has_duplicates uids); [discriminate|]. injection Hi as <-.
  exists (map (position uids) (s_columns S)).
  rewrite lookup_insert_ne by discriminate. rewrite lookup_insert_eq.
  split; [reflexivity|]. split; [apply length_map|].
  intros j b Hj. exists (position uids b). rewrite lookup_map, Hj.
  split; [reflexivity|]. split; [apply position_found | apply position_absent].
Qed.

Lemma idx_bottom_positions_witness :
  exists idx_bottom : list Z,
    Examples.ctx_naive !! "idx_bottom" = Some (VIndexer idx_bottom)
    /\ length idx_bottom = length (s_columns Examples.S2)
    /\ forall j b, s_columns Examples.S2 !! j = Some b ->
         exists z, idx_bottom !! j = Some z
           /\ (b ∈ ["total"; "regionA"] -> 0 <= z /\ ["total"; "regionA"] !! Z.to_nat z = Some b)
           /\ (b ∉ ["total"; "regionA"] -> z = -1).
Proof.
  apply (idx_bottom_positions Examples.Y_train Examples.S2 Examples.tags2
           ["total"; "regionA"] Examples.ctx_naive).
  - apply (bool_decide_unpack _). vm_compute. exact I.
  - reflexivity.
  - intros u Hu. apply (bool_decide_unpack _).
    apply elem_of_cons in Hu as [->|Hu]; [vm_compute; exact I|].
    apply elem_of_cons in Hu as [->|Hu]; [vm_compute; exact I|]. inversion Hu.
  - vm_compute. reflexivity.
Defined.

(** ** Faults of the training table *)

Lemma elem_of_sorted_unique_labels (l : list string) (u : string) :
  u ∈ sorted_unique_labels l <-> u ∈ l.
Proof.
  unfold sorted_unique_labels. rewrite (sort_perm String.leb (unique l)).
  apply elem_of_unique.
Qed.

(** X17 (lines 88 to 90): once [S.loc[uids]] has succeeded, the training
    table is checked next, before any method runs.  Without a [y] column
    the call raises [KeyError] for [y]; with two rows for one series and
    timestamp it raises the [ValueError] of [pivot]; and when a series of
    the forecasts has no row in the training table it raises a [KeyError]
    that names the series without history. *)
Theorem training_table_faults (reconcilers : list Reconciler) (Y_hat_df Y_df : DataFrame)
    (S S_ : SFrame) (tags : list (string * list string)) (level : option (list Z))
    (bootstrap : bool) :
  s_loc S (unique (index Y_hat_df)) = Ok S_ ->
  ("y" ∉ column_names Y_df ->
   reconcile reconcilers Y_hat_df Y_df S tags level bootstrap = Err (KeyError ["y"]))
  /\ ("y" ∈ column_names Y_df ->
      ~ NoDup (zip (index Y_df) (ds Y_df)) ->
      reconcile reconcilers Y_hat_df Y_df S tags level bootstrap =
      Err (ValueError "Index contains duplicate entries, cannot reshape"))
  /\ ("y" ∈ column_names Y_df ->
      NoDup (zip (index Y_df) (ds Y_df)) ->
      forall u, u ∈ index Y_hat_df -> u ∉ index Y_df ->
      u ∈ List.filter (fun u => negb (bool_decide (u ∈ index Y_df))) (unique (index Y_hat_df))
      /\ reconcile reconcilers Y_hat_df Y_df S tags level bootstrap =
         Err (KeyError (List.filter (fun u => negb (bool_decide (u ∈ index Y_df)))
                                    (unique (index Y_hat_df))))).
Proof.
  intros HS. unfold reconcile, build_common_vals. rewrite HS. simpl.
  unfold pivot_loc_values, pivot, get_column.
  assert (Hy : "y" ∈ column_names Y_df ->
             exists i ys, list_find (fun c => fst c = "y") (columns Y_df) = Some (i, ("y", ys))).
  { intros Hin. unfold column_names in Hin. apply list_elem_of_fmap in Hin as ([n ys] & Hn & Hin).
    simpl in Hn. subst n.
    destruct (list_find (fun c => fst c = "y") (columns Y_df)) as [[i [n ys']]|] eqn:E.
    - pose proof E as E'. apply list_find_Some in E' as (_ & Hn & _). simpl in Hn. subst n. eauto.
    - apply list_find_None in E. rewrite Forall_forall in E. now apply E in Hin. }
  split; [|split].
  - intros Hout.
    destruct (list_find _ (columns Y_df)) as [[i [n ys]]|] eqn:E; [|reflexivity].
    apply list_find_Some in E as (Hi & Hn & _). simpl in Hn. subst n.
    exfalso. apply Hout. unfold column_names. apply list_elem_of_fmap.
    exists ("y", ys). split; [reflexivity|]. eapply list_elem_of_lookup_2. exact Hi.
  - intros Hin Hdup. destruct (Hy Hin) as (i & ys & ->). simpl.
    unfold has_duplicates. now rewrite bool_decide_eq_false_2 by exact Hdup.
  - intros Hin Hnd u Hu Hout. destruct (Hy Hin) as (i & ys & ->). simpl.
    unfold has_duplicates. rewrite bool_decide_eq_true_2 by exact Hnd. simpl.
    unfold wide_loc_values. simpl.
    rewrite (filter_ext_in
               (fun u => negb (bool_decide (u ∈ sorted_unique_labels (index Y_df))))
               (fun u => negb (bool_decide (u ∈ index Y_df))))
      by (intros x _; f_equal; apply bool_decide_ext, elem_of_sorted_unique_labels).
    assert (Hm : u ∈ List.filter (fun u => negb (bool_decide (u ∈ index Y_df)))
                                 (unique (index Y_hat_df))).
    { apply elem_of_filter_bool. split; [now apply elem_of_unique|].
      apply negb_true_iff. now apply bool_decide_eq_false. }
    split; [exact Hm|].
    destruct (List.filter _ (unique (index Y_hat_df))); [inversion Hm | reflexivity].
Qed.

Lemma training_table_faults_witness :
  ("y" ∉ column_names Examples.Y_hat_AB ->
   reconcile [Examples.passthrough ["y_hat"]] Examples.Y_hat_naive Examples.Y_hat_AB
             Examples.S2 Examples.tags2 None false = Err (KeyError ["y"]))
  /\ ("y" ∈ column_names Examples.Y_hat_AB ->
      ~ NoDup (zip (index Examples.Y_hat_AB) (ds Examples.Y_hat_AB)) ->
      reconcile [Examples.passthrough ["y_hat"]] Examples.Y_hat_naive Examples.Y_hat_AB
                Examples.S2 Examples.tags2 None false =
      Err (ValueError "Index contains duplicate entries, cannot reshape"))
  /\ ("y" ∈ column_names Examples.Y_hat_AB ->
      NoDup (zip (index Examples.Y_hat_AB) (ds Examples.Y_hat_AB)) ->
      forall u, u ∈ index Examples.Y_hat_naive -> u ∉ index Examples.Y_hat_AB ->
      u ∈ List.filter (fun u => negb (bool_decide (u ∈ index Examples.Y_hat_AB)))
                      (unique (index Examples.Y_hat_naive))
      /\ reconcile [Examples.passthrough ["y_hat"]] Examples.Y_hat_naive Examples.Y_hat_AB
                   Examples.S2 Examples.tags2 None false =
         Err (KeyError (List.filter (fun u => negb (bool_decide (u ∈ index Examples.Y_hat_AB)))
                                    (unique (index Examples.Y_hat_naive))))).
Proof.
  apply (training_table_faults [Examples.passthrough ["y_hat"]] Examples.Y_hat_naive
           Examples.Y_hat_AB Examples.S2
           {| s_index := ["total"; "regionA"]; s_columns := ["regionA"];
              s_values := [[Examples.c 1]; [Examples.c 1]] |}
           Examples.tags2 None false).
  vm_compute. reflexivity.
Defined.

(** ** Every column of the result *)

Lemma write_level_names_only (model_name : string) (fn : Reconciler)
    (fcsts_model : list (string * matrix)) (a b : DataFrame) (lv : Z) (name : string) :
  write_level model_name (_build_fn_name fn) fcsts_model a lv = Ok b ->
  name ∈ column_names b ->
  name ∈ column_names a \/ name = lo_column model_name fn lv
  \/ name = hi_column model_name fn lv.
Proof.
  unfold write_level. intros H Hname.
  invert_bind H as lo Hlo. invert_bind H as a1 H1. invert_bind H as hi Hhi.
  destruct (set_column_names _ _ _ _ _ H Hname) as [->|Hin]; [now right; right|].
  destruct (set_column_names _ _ _ _ _ H1 Hin) as [->|Hin']; [now right; left | now left].
Qed.

(** X8 (lines 143 to 147): [reconcile] writes no other column than these.
    Every column of the result is a column of the base-forecast table, or
    the mean column of a model and a reconciler, or the lower or upper
    column of a model, a reconciler and a level of the level list; and
    interval columns are written only in bootstrap mode or, with bootstrap
    off, for a reconciler whose signature names [level] and a model that
    has an interval column. *)
Theorem result_columns (reconcilers : list Reconciler) (Y_hat_df Y_df : DataFrame)
    (S : SFrame) (tags : list (string * list string)) (level : option (list Z))
    (bootstrap : bool) (fcsts : DataFrame) (name : string) :
  reconcile reconcilers Y_hat_df Y_df S tags level bootstrap = Ok fcsts ->
  name ∈ column_names fcsts ->
  name ∈ column_names Y_hat_df
  \/ exists fn model_name,
       fn ∈ reconcilers /\ model_name ∈ model_names_of Y_hat_df
       /\ (name = mean_column model_name fn
           \/ exists levels lv,
                level = Some levels /\ lv ∈ levels
                /\ (bootstrap = true
                    \/ (pi_of (pi_model_names_of Y_hat_df) model_name = true
                        /\ "level" ∈ parameters fn))
                /\ (name = lo_column model_name fn lv \/ name = hi_column model_name fn lv)).
Proof.
  intros H. unfold reconcile in H.
  invert_bind H as common_vals Hcv. invert_bind H as st Hst. injection H as <-.
  set (I := fun st : gmap string val * DataFrame =>
    forall name, name ∈ column_names (snd st) ->
      name ∈ column_names Y_hat_df
      \/ exists fn model_name,
           fn ∈ reconcilers /\ model_name ∈ model_names_of Y_hat_df
           /\ (name = mean_column model_name fn
               \/ exists levels lv,
                    level = Some levels /\ lv ∈ levels
                    /\ (bootstrap = true
                        \/ (pi_of (pi_model_names_of Y_hat_df) model_name = true
                            /\ "level" ∈ parameters fn))
                    /\ (name = lo_column model_name fn lv
                        \/ name = hi_column model_name fn lv))).
  assert (Hstep : forall a fn a', fn ∈ reconcilers -> I a ->
             per_reconciler Y_hat_df Y_df level bootstrap (unique (index Y_hat_df))
               (pi_model_names_of Y_hat_df) (model_names_of Y_hat_df) a fn = Ok a' ->
             I a').
  { intros a fn a' Hfn Ha Hper. unfold per_reconciler in Hper.
    refine (foldM_preserves I _ _ _ _ _ Ha Hper).
    intros x m x' Hm Hx Hit. unfold iteration in Hit.
    invert_bind Hit as staged Hs. invert_bind Hit as fcsts_model Hcall.
    invert_bind Hit as written Hw. invert_bind Hit as purged Hp. injection Hit as <-.
    unfold write in Hw. invert_bind Hw as mean Hmean. invert_bind Hw as a1 H1.
    assert (Ha1 : I (fst x, a1)).
    { intros n Hn. simpl in Hn.
      destruct (set_column_names _ _ _ _ _ H1 Hn) as [->|Hold]; [|auto].
      right. exists fn, m. auto. }
    destruct (_ || _) eqn:G; [|injection Hw as <-; exact Ha1].
    assert (Hgate : exists levels, level = Some levels
              /\ (bootstrap = true
                  \/ (pi_of (pi_model_names_of Y_hat_df) m = true
                      /\ "level" ∈ parameters fn))).
    { destruct level as [levels|]; [|now rewrite !andb_false_r in G].
      exists levels. split; [reflexivity|]. simpl in G. rewrite !andb_true_r in G.
      apply orb_true_iff in G as [G | G]; [|now left].
      apply andb_true_iff in G as [Gpi Gl]. apply bool_decide_eq_true in Gl. auto. }
    destruct Hgate as (levels & -> & Hgate). simpl in Hw.
    refine (foldM_preserves (fun df => I (fst x, df)) _ _ _ _ _ Ha1 Hw).
    intros df lv df' Hlv Hdf Hwl n Hn. simpl in Hn.
    destruct (write_level_names_only _ _ _ _ _ _ _ Hwl Hn) as [Hold | Hnew];
      [now apply Hdf|].
    right. exists fn, m. repeat split; auto. right. exists levels, lv. auto. }
  exact (foldM_preserves I _ _ Hstep (common_vals, Y_hat_df) st
           (fun n Hn => or_introl Hn) Hst name).
Qed.

Lemma result_columns_witness :
  "naive/Passthrough-hi-80" ∈ column_names Examples.Y_hat_pi
  \/ exists fn model_name,
       fn ∈ [Examples.passthrough ["y_hat"; "level"; "sigmah"]]
       /\ model_name ∈ model_names_of Examples.Y_hat_pi
       /\ ("naive/Passthrough-hi-80" = mean_column model_name fn
           \/ exists levels lv,
                Some [80] = Some levels /\ lv ∈ levels
                /\ (false = true
                    \/ (pi_of (pi_model_names_of Examples.Y_hat_pi) model_name = true
                        /\ "level" ∈ parameters fn))
                /\ ("naive/Passthrough-hi-80" = lo_column model_name fn lv
                    \/ "naive/Passthrough-hi-80" = hi_column model_name fn lv)).
Proof.
  apply (result_columns [Examples.passthrough ["y_hat"; "level"; "sigmah"]]
           Examples.Y_hat_pi Examples.Y_train Examples.S2 Examples.tags2 (Some [80]) false
           Examples.fcsts_pi "naive/Passthrough-hi-80").
  - vm_compute. reflexivity.
  - apply (bool_decide_unpack _). vm_compute. exact I.
Defined.

(** ** Levels with a decimal point or a comma *)

Lemma all_chars_app (p : ascii -> bool) (s t : string) :
  all_chars p (s ++ t) = all_chars p s && all_chars p t.
Proof.
  induction s as [|c s IH]; [reflexivity|].
  rewrite append_cons. simpl. now rewrite IH, andb_assoc.
Qed.

Lemma all_chars_digits_num (s : string) :
  all_chars is_digit s = true -> all_chars is_num_char s = true.
Proof.
  induction s as [|c s IH]; [reflexivity|]. simpl. intros H.
  apply andb_true_iff in H as [Hc Hs]. unfold is_num_char at 1. rewrite Hc. simpl. auto.
Qed.

Lemma take_while_all (p : ascii -> bool) (s : string) :
  all_chars p s = true -> take_while p s = s.
Proof.
  induction s as [|c s IH]; [reflexivity|]. simpl. intros H.
  apply andb_true_iff in H as [Hc Hs]. rewrite Hc. now rewrite IH.
Qed.

(** A digit, then digits, dots and commas to the end of the name: the
    match is all of it. *)
Lemma first_number_run (I T : string) :
  I <> "" -> all_chars is_digit I = true -> all_chars is_num_char T = true ->
  first_number (I ++ T) = Ok (I ++ T).
Proof.
  destruct I as [|c I]; [congruence|]. intros _ HI HT.
  simpl in HI. apply andb_true_iff in HI as [Hc HI].
  rewrite append_cons. cbn [first_number]. rewrite Hc.
  rewrite take_while_all; [reflexivity|].
  rewrite all_chars_app, HT, andb_true_r. now apply all_chars_digits_num.
Qed.

Lemma split_decimal_frac (F : string) (int_part frac_part : list ascii) :
  all_chars is_digit F = true ->
  split_decimal F true int_part frac_part =
  Some (int_part, (frac_part ++ list_ascii_of_string F)%list).
Proof.
  revert frac_part. induction F as [|c F IH]; intros frac_part H; simpl.
  - now rewrite app_nil_r.
  - simpl in H. apply andb_true_iff in H as [Hc HF]. rewrite Hc.
    rewrite IH by exact HF. now rewrite <- app_assoc.
Qed.

Lemma split_decimal_point (I F : string) (int_part : list ascii) :
  all_chars is_digit I = true -> all_chars is_digit F = true ->
  split_decimal (I ++ "." ++ F) false int_part [] =
  Some ((int_part ++ list_ascii_of_string I)%list, list_ascii_of_string F).
Proof.
  revert int_part. induction I as [|c I IH]; intros int_part HI HF.
  - rewrite append_nil. change ("." ++ F) with (String "." F). cbn [split_decimal].
    simpl. rewrite split_decimal_frac by exact HF. now rewrite app_nil_r.
  - simpl in HI. apply andb_true_iff in HI as [Hc HI].
    rewrite append_cons. cbn [split_decimal]. rewrite Hc.
    rewrite IH by assumption. now rewrite <- app_assoc.
Qed.

Lemma split_decimal_comma (I T : string) (seen_dot : bool) (int_part frac_part : list ascii) :
  all_chars is_digit I = true ->
  split_decimal (I ++ "," ++ T) seen_dot int_part frac_part = None.
Proof.
  revert int_part frac_part. induction I as [|c I IH]; intros int_part frac_part HI.
  - rewrite append_nil. change ("," ++ T) with (String "," T). reflexivity.
  - simpl in HI. apply andb_true_iff in HI as [Hc HI].
    rewrite append_cons. cbn [split_decimal]. rewrite Hc.
    destruct seen_dot; now apply IH.
Qed.

(** X18 (lines 113 and 114): for a model whose name has no digit and no
    dot, a level written with a decimal point at the end of the column
    name is read as that decimal number.  Written with a comma it is
    matched whole by the pattern, which admits commas, and [float] then
    raises [ValueError]. *)
Theorem decimal_and_comma_levels (m I F : string) :
  all_chars plain_char m = true ->
  I <> "" ->
  all_chars is_digit I = true ->
  all_chars is_digit F = true ->
  level_of (m ++ "-lo-" ++ I ++ "." ++ F) =
    Ok (Qmake (digits_value (list_ascii_of_string I ++ list_ascii_of_string F))
              (Z.to_pos (10 ^ Z.of_nat (length (list_ascii_of_string F)))))
  /\ level_of (m ++ "-lo-" ++ I ++ "," ++ F) =
     Err (ValueError ("could not convert string to float: " ++ I ++ "," ++ F)).
Proof.
  intros Hm Hne HI HF. unfold level_of.
  rewrite !(first_number_skip m) by exact Hm.
  rewrite !(first_number_skip "-lo-") by reflexivity.
  assert (HT : forall sep, is_num_char sep = true ->
            all_chars is_num_char (String sep F) = true)
    by (intros sep Hsep; simpl; rewrite Hsep; now apply all_chars_digits_num).
  split.
  - rewrite (first_number_run I ("." ++ F)) by (auto; now apply (HT "."%char)).
    simpl. unfold py_float. now rewrite split_decimal_point by assumption.
  - rewrite (first_number_run I ("," ++ F)) by (auto; now apply (HT ","%char)).
    simpl. unfold py_float. now rewrite split_decimal_comma by assumption.
Qed.

Lemma decimal_and_comma_levels_witness :
  level_of ("ETS" ++ "-lo-" ++ "97" ++ "." ++ "5") =
    Ok (Qmake (digits_value (list_ascii_of_string "97" ++ list_ascii_of_string "5"))
              (Z.to_pos (10 ^ Z.of_nat (length (list_ascii_of_string "5")))))
  /\ level_of ("ETS" ++ "-lo-" ++ "97" ++ "," ++ "5") =
     Err (ValueError ("could not convert string to float: " ++ "97" ++ "," ++ "5")).
Proof.
  apply (decimal_and_comma_levels "ETS" "97" "5").
  - reflexivity.
  - discriminate.
  - reflexivity.
  - reflexivity.
Defined.

(** * Rows and columns of the result *)

(** C7, counterexample: the base-forecast table has a column named
    [naive/Passthrough].  Its name has no interval marker, so it is a model
    (lines 83 to 85); the iteration of the model [naive] writes its mean
    under that name (line 143) and the forecasts the column held are gone.
    The rows are those of the input; the result has one column more, not
    two. *)
Lemma reconcile_overwrites_input_column :
  model_names_of Examples.Y_hat_taken = ["naive"; "naive/Passthrough"]
  /\ reconcile [Examples.passthrough ["y_hat"]] Examples.Y_hat_taken Examples.Y_train
       Examples.S2 Examples.tags2 None false = Ok Examples.fcsts_taken
  /\ get_column Examples.Y_hat_taken "naive/Passthrough" = Ok Examples.sevens
  /\ get_column Examples.fcsts_taken "naive/Passthrough" = Ok Examples.tens
  /\ Examples.sevens <> Examples.tens.
Proof. repeat split; solve [discriminate | vm_compute; reflexivity]. Qed.

Lemma write_keeps_other_column (level : option (list Z)) (bootstrap : bool)
    (pi_model_names : list string) (has_level : bool) (model_name : string)
    (fn : Reconciler) (fcsts_model : list (string * matrix)) (a b : DataFrame)
    (name : string) :
  name <> mean_column model_name fn ->
  (forall lv, lv ∈ default [] level ->
     name <> lo_column model_name fn lv /\ name <> hi_column model_name fn lv) ->
  write level bootstrap pi_model_names has_level model_name (_build_fn_name fn)
        fcsts_model a = Ok b ->
  get_column b name = get_column a name.
Proof.
  intros Hmean Hint H. unfold write in H.
  invert_bind H as mean Hm. invert_bind H as a1 H1.
  apply (set_column_other _ _ _ name) in H1; [|exact Hmean]. rewrite <- H1.
  destruct (_ || _); [|now injection H as <-].
  refine (foldM_preserves (fun df => get_column df name = get_column a1 name)
            _ _ _ a1 b eq_refl H).
  intros df lv df' Hlv Hdf Hwl. unfold write_level in Hwl.
  invert_bind Hwl as lo Hlo. invert_bind Hwl as df1 Hd1. invert_bind Hwl as hi Hhi.
  destruct (Hint lv Hlv) as [Hnlo Hnhi].
  apply (set_column_other _ _ _ name) in Hd1; [|exact Hnlo].
  apply (set_column_other _ _ _ name) in Hwl; [|exact Hnhi]. congruence.
Qed.

(** C7, amended: the table [reconcile] returns has the rows of the
    base-forecast table, as many and in the same order: the same index and
    the same timestamps, and one cell per row in every column.  Every
    column name of the input is still there, and every column whose name
    is not one of the names the dispatcher writes (a mean, lower or upper
    column of a model, a reconciler and a level) holds what it held. *)
Theorem reconcile_keeps_rows (reconcilers : list Reconciler)
    (Y_hat_df Y_df : DataFrame) (S : SFrame) (tags : list (string * list string))
    (level : option (list Z)) (bootstrap : bool) (fcsts : DataFrame) :
  well_formed Y_hat_df ->
  reconcile reconcilers Y_hat_df Y_df S tags level bootstrap = Ok fcsts ->
  index fcsts = index Y_hat_df
  /\ ds fcsts = ds Y_hat_df
  /\ well_formed fcsts
  /\ (forall n, n ∈ column_names Y_hat_df -> n ∈ column_names fcsts)
  /\ (forall n, ~ written reconcilers (model_names_of Y_hat_df) level n ->
        get_column fcsts n = get_column Y_hat_df n).
Proof.
  intros Hwf H. unfold reconcile in H.
  invert_bind H as common_vals Hcv. invert_bind H as st Hst. injection H as <-.
  pose proof Hst as Hext.
  apply (foldM_invariant (fun s s' => extends (snd s) (snd s'))) in Hext;
    eauto using extends_refl, extends_trans, per_reconciler_extends.
  destruct Hext as (Hi & Hd & _ & Hn & Hw). simpl in *.
  repeat split; try (apply Hw; exact Hwf); auto.
  intros n Hnot.
  set (I := fun s : gmap string val * DataFrame =>
              get_column (snd s) n = get_column Y_hat_df n).
  assert (Hstep : forall a fn a', fn ∈ reconcilers -> I a ->
             per_reconciler Y_hat_df Y_df level bootstrap (unique (index Y_hat_df))
               (pi_model_names_of Y_hat_df) (model_names_of Y_hat_df) a fn = Ok a' ->
             I a').
  { intros a fn a' Hfn Ha Hper. unfold per_reconciler in Hper.
    refine (foldM_preserves I _ _ _ a a' Ha Hper).
    intros x m x' Hm Hx Hit. unfold iteration in Hit.
    invert_bind Hit as staged Hs. invert_bind Hit as fcsts_model Hcall.
    invert_bind Hit as written' Hwr. invert_bind Hit as purged Hp. injection Hit as <-.
    unfold I in *. simpl. rewrite <- Hx.
    apply (write_keeps_other_column _ _ _ _ _ _ _ _ _ n) in Hwr; [exact Hwr | |].
    - intros ->. apply Hnot. exists fn, m. auto.
    - intros lv Hlv. split; intros ->; apply Hnot; exists fn, m;
        (split; [exact Hfn | split; [exact Hm | right; exists lv; auto]]). }
  exact (foldM_preserves I _ _ Hstep (common_vals, Y_hat_df) st eq_refl Hst).
Qed.

Lemma reconcile_keeps_rows_witness :
  index Examples.fcsts_taken = index Examples.Y_hat_taken
  /\ ds Examples.fcsts_taken = ds Examples.Y_hat_taken
  /\ well_formed Examples.fcsts_taken
  /\ (forall n, n ∈ column_names Examples.Y_hat_taken -> n ∈ column_names Examples.fcsts_taken)
  /\ (forall n, ~ written [Examples.passthrough ["y_hat"]]
                    (model_names_of Examples.Y_hat_taken) None n ->
        get_column Examples.fcsts_taken n = get_column Examples.Y_hat_taken n).
Proof.
  apply (reconcile_keeps_rows [Examples.passthrough ["y_hat"]] Examples.Y_hat_taken
           Examples.Y_train Examples.S2 Examples.tags2 None false Examples.fcsts_taken).
  - split; [reflexivity | repeat constructor].
  - vm_compute. reflexivity.
Defined.

(** * The column the scale is recovered from *)

(** C10: the has-intervals flag of a model is set exactly when some column
    of the base-forecast table has an interval marker ([-lo] or [-hi]) in
    its name and the model's name as a substring, whichever model the
    column belongs to.  The column [pi_model_name[0]] is the first such
    column in the order of the table, and it is the one lines 106 to 119
    recover the scale from: with a method that names [level], a level list
    and bootstrap off, they stage the estimate computed from the sign, the
    level and the values of that column. *)
Theorem has_intervals_flag (Y_hat_df : DataFrame) (m : string) :
  (pi_of (pi_model_names_of Y_hat_df) m = true <->
   exists c : string,
     c ∈ column_names Y_hat_df
     /\ (is_substring "-lo" c \/ is_substring "-hi" c)
     /\ is_substring m c)
  /\ first (pi_model_name_of (pi_model_names_of Y_hat_df) m) =
     match List.find (fun c => interval_marked c && contains m c)
                     (column_names Y_hat_df) with
     | Some c => Ok c
     | None => Err IndexError
     end
  /\ (forall (level : option (list Z)) (bootstrap has_level : bool) (uids : list string)
             (y_hat_model : matrix) (common_vals : gmap string val)
             (c : string) (level_col : Q) (bound : matrix),
        List.find (fun c => interval_marked c && contains m c) (column_names Y_hat_df)
          = Some c ->
        has_level = true -> level <> None -> bootstrap = false ->
        level_of c = Ok level_col ->
        pivot_loc_values Y_hat_df c uids = Ok bound ->
        stage_sigmah Y_hat_df level bootstrap uids (pi_model_names_of Y_hat_df) has_level m
                     y_hat_model common_vals =
        Ok (<["level" := level_val level]>
              (<["sigmah" := VMatrix (interval_to_scale (sign_of c) level_col
                                                        y_hat_model bound)]> common_vals))
        /\ forall i j p b,
             cell y_hat_model i j = Some p -> cell bound i j = Some b ->
             cell (interval_to_scale (sign_of c) level_col y_hat_model bound) i j =
             Some (Div (Mul (Const (inject_Z (sign_of c))) (Sub p b))
                       (Ppf (Add (Const (1 # 2)) (Div (Const level_col) (Const 200)))))).
Proof.
  assert (Hfirst : first (pi_model_name_of (pi_model_names_of Y_hat_df) m) =
                   match List.find (fun c => interval_marked c && contains m c)
                                   (column_names Y_hat_df) with
                   | Some c => Ok c
                   | None => Err IndexError
                   end)
    by now rewrite pi_model_name_of_columns, first_filter.
  split; [|split; [exact Hfirst|]].
  - unfold pi_of. rewrite bool_decide_eq_true, pi_model_name_of_columns, filter_nonempty.
    split; intros [c Hc]; exists c.
    + destruct Hc as [Hin Hp]. apply andb_true_iff in Hp as [Hm Hs].
      apply orb_true_iff in Hm. rewrite !contains_spec in Hm.
      rewrite contains_spec in Hs. rewrite list_elem_of_In. auto.
    + destruct Hc as (Hin & Hm & Hs). rewrite list_elem_of_In in Hin.
      split; [exact Hin|]. apply andb_true_iff. split.
      * apply orb_true_iff. now rewrite !contains_spec.
      * now apply contains_spec.
  - intros level bootstrap has_level uids y_hat_model common_vals c level_col bound
           Hfind -> Hlevel -> Hl Hp.
    rewrite Hfind in Hfirst. unfold stage_sigmah.
    assert (Hpi : pi_of (pi_model_names_of Y_hat_df) m = true).
    { unfold pi_of. apply bool_decide_eq_true.
      destruct (pi_model_name_of (pi_model_names_of Y_hat_df) m); [discriminate | simpl; lia]. }
    split; [|intros i j p b; apply interval_to_scale_cell].
    rewrite Hpi, Hfirst. destruct level; [|congruence]. simpl.
    rewrite Hl. simpl. now rewrite Hp.
Qed.

Lemma has_intervals_flag_witness :
  stage_sigmah Examples.Y_hat_ETS (Some [80]) false ["total"; "regionA"]
               (pi_model_names_of Examples.Y_hat_ETS) true "ETS" Examples.tens_matrix ∅ =
  Ok (<["level" := level_val (Some [80])]>
        (<["sigmah" := VMatrix (interval_to_scale (sign_of "AutoETS-lo-80") 80
                                  Examples.tens_matrix Examples.sevens_matrix)]> ∅))
  /\ forall i j p b,
       cell Examples.tens_matrix i j = Some p -> cell Examples.sevens_matrix i j = Some b ->
       cell (interval_to_scale (sign_of "AutoETS-lo-80") 80 Examples.tens_matrix
                               Examples.sevens_matrix) i j =
       Some (Div (Mul (Const (inject_Z (sign_of "AutoETS-lo-80"))) (Sub p b))
                 (Ppf (Add (Const (1 # 2)) (Div (Const 80) (Const 200))))).
Proof.
  apply (proj2 (proj2 (has_intervals_flag Examples.Y_hat_ETS "ETS"))
           (Some [80]) false true ["total"; "regionA"] Examples.tens_matrix ∅
           "AutoETS-lo-80" 80%Q Examples.sevens_matrix).
  - reflexivity.
  - reflexivity.
  - discriminate.
  - reflexivity.
  - vm_compute. reflexivity.
  - vm_compute. reflexivity.
Defined.

(** * The wide table holds every row *)

Lemma elem_of_sorted_unique_ds (l : list Z) (t : Z) : t ∈ sorted_unique_ds l <-> t ∈ l.
Proof.
  unfold sorted_unique_ds. rewrite (sort_perm Z.leb (unique l)). apply elem_of_unique.
Qed.

(** X13 (lines 105, 116 and 122): in a table without a repeated (series,
    timestamp) row, the pivot loses no row.  [pivot(...).loc[uids].values]
    succeeds, and the value of every row of the long table is in the
    matrix, at the row of that row's series among [uids] and the column of
    its timestamp among the sorted timestamps. *)
Theorem pivot_holds_every_row (df : DataFrame) (name : string) (vals : list num)
    (p : nat) (u : string) (t : Z) (v : num) :
  get_column df name = Ok vals ->
  NoDup (zip (index df) (ds df)) ->
  index df !! p = Some u ->
  ds df !! p = Some t ->
  vals !! p = Some v ->
  exists (m : matrix) (i j : nat),
    pivot_loc_values df name (unique (index df)) = Ok m
    /\ unique (index df) !! i = Some u
    /\ sorted_unique_ds (ds df) !! j = Some t
    /\ cell m i j = Some v.
Proof.
  intros Hcol Hnd Hu Ht Hv.
  assert (Hui : u ∈ unique (index df))
    by (apply elem_of_unique; eapply list_elem_of_lookup_2; exact Hu).
  assert (Htj : t ∈ sorted_unique_ds (ds df))
    by (apply elem_of_sorted_unique_ds; eapply list_elem_of_lookup_2; exact Ht).
  apply list_elem_of_lookup_1 in Hui as [i Hi]. apply list_elem_of_lookup_1 in Htj as [j Hj].
  eexists _, i, j. split; [apply pivot_loc_values_matrix; eassumption|].
  split; [exact Hi|]. split; [exact Hj|].
  unfold cell, matrix. rewrite (lookup_map _ (unique (index df)) i), Hi. simpl.
  rewrite lookup_map, Hj. simpl.
  f_equal. unfold pivot_cell, long_rows.
  assert (Hkey : zip (index df) (ds df) !! p = Some (u, t)) by now apply lookup_zip_Some.
  now rewrite (find_key_at _ _ p (u, t) v Hnd Hkey Hv).
Qed.

Lemma pivot_holds_every_row_witness :
  exists (m : matrix) (i j : nat),
    pivot_loc_values Examples.Y_hat_ragged "naive" (unique (index Examples.Y_hat_ragged)) = Ok m
    /\ unique (index Examples.Y_hat_ragged) !! i = Some "regionA"
    /\ sorted_unique_ds (ds Examples.Y_hat_ragged) !! j = Some 2
    /\ cell m i j = Some (Examples.c 10).
Proof.
  apply (pivot_holds_every_row Examples.Y_hat_ragged "naive" Examples.fives 4 "regionA" 2
           (Examples.c 10)).
  - reflexivity.
  - apply (bool_decide_unpack _). vm_compute. exact I.
  - reflexivity.
  - reflexivity.
  - reflexivity.
Defined.
